(** * RTMP-To-WebRTC relay: signaling, session lifecycle and media ingest

    A shallow embedding of [main.go].  The program is glue around three
    external collaborators (the pion WebRTC stack, the gorilla WebSocket
    connection and the UDP socket); these are kept abstract behind the
    [Collaborators] interface, as a deterministic state machine over a hidden
    library state [Lib].  Every call into a collaborator is also recorded, in
    program order, in a trace of [Event]s, so that statements such as
    "the answer is written after gathering completed" are statements about
    the trace.

    Go pointers are [option]s ([None] is [nil]); dereferencing [nil], closing
    a closed channel and the like yield the outcome [Panic]; a receive or a
    lock that can never proceed yields [Blocked]. *)

From Stdlib Require Import String List ZArith Lia Bool.
From Stdlib Require Import Strings.Byte.
From Equations Require Import Equations.
Import ListNotations.
Open Scope string_scope.

(** ** Plain data *)

(** Go's [error]: [None] is [nil], [Some s] an error whose [Error()] is [s]. *)
Definition GoError := option string.

(** [(T, error)] results of library constructors. *)
Definition Result (A : Type) := (string + A)%type.

(** [fmt.Errorf(prefix ++ "%v", err)] *)
Definition Errorf (prefix e : string) : GoError := Some (prefix ++ e).

(** State of an unbuffered [chan struct{}] on which nobody ever sends. *)
Inductive Chan := ChanOpen | ChanClosed.

(** [webrtc.MimeTypeVP8] and [webrtc.MimeTypeOpus]. *)
Definition MimeTypeVP8 : string := "video/VP8".
Definition MimeTypeOpus : string := "audio/opus".

(** [webrtc.TrackLocalStaticSample] as built by [NewTrackLocalStaticSample]:
    codec capability, id and stream id. *)
Record TrackLocalStaticSample := {
  trackMimeType : string;
  trackID : string;
  trackStreamID : string
}.

Inductive RTPCodecType := RTPCodecTypeUnknown | RTPCodecTypeAudio | RTPCodecTypeVideo.

(** [TrackLocalStaticSample.Kind()]: decided by the prefix of the mime type. *)
Definition Kind (t : TrackLocalStaticSample) : RTPCodecType :=
  if String.prefix "audio/" (trackMimeType t) then RTPCodecTypeAudio
  else if String.prefix "video/" (trackMimeType t) then RTPCodecTypeVideo
  else RTPCodecTypeUnknown.

(** [rtp.Packet]: the header fields and the payload. *)
Record Packet := {
  PayloadType : Z;
  SequenceNumber : Z;
  Timestamp : Z;
  Marker : bool;
  Payload : list byte
}.

(** The two depacketizers handed to [samplebuilder.New]. *)
Inductive Depacketizer := VP8Packet | OpusPacket.

(** [SignalingMessage], over the library's description and candidate types. *)
Record SignalingMessage (SD ICI : Type) := {
  Type_ : string;
  SDP : option SD;
  ICE : option ICI;
  Error_ : string
}.
Arguments Type_ {SD ICI} _.
Arguments SDP {SD ICI} _.
Arguments ICE {SD ICI} _.
Arguments Error_ {SD ICI} _.
Arguments Build_SignalingMessage {SD ICI} _ _ _ _.

(** [webrtc.Configuration]: the list of ICE servers, each a list of URLs. *)
Definition Configuration := list (list string).

(** Result of one [udpListener.ReadFrom] under a read deadline. *)
Inductive ReadResult :=
| Datagram (data : list byte)
| ReadTimeout (e : string)        (* [os.IsTimeout(err)] holds *)
| ReadError (e : string).         (* any other error *)

(** How a call ends: it returns, it panics, or it never proceeds. *)
Inductive Outcome (A : Type) :=
| Ok (a : A)
| Panic (msg : string)
| Blocked.
Arguments Ok {A} _.
Arguments Panic {A} _.
Arguments Blocked {A}.

(** ** The external collaborators *)

Class Collaborators := {
  SessionDescription : Type;
  ICECandidateInit : Type;
  ICECandidate : Type;
  PeerConnection : Type;
  WSConn : Type;
  UDPConn : Type;
  Sample : Type;
  SampleBuilder : Type;
  Lib : Type;
  (* pion/webrtc *)
  libRegisterDefaultCodecs : Lib -> GoError * Lib;
  libNewPeerConnection : Configuration -> Lib -> Result PeerConnection * Lib;
  libNewTrackLocalStaticSample : string -> string -> string -> Lib -> GoError * Lib;
  libAddTrack : PeerConnection -> TrackLocalStaticSample -> Lib -> GoError * Lib;
  libClose : PeerConnection -> Lib -> GoError * Lib;
  libSetRemoteDescription : PeerConnection -> SessionDescription -> Lib -> GoError * Lib;
  libCreateAnswer : PeerConnection -> Lib -> Result SessionDescription * Lib;
  libSetLocalDescription : PeerConnection -> SessionDescription -> Lib -> GoError * Lib;
  (* [<-webrtc.GatheringCompletePromise(pc)]: [None] when gathering never ends *)
  libGatheringComplete : PeerConnection -> Lib -> option Lib;
  libLocalDescription : PeerConnection -> Lib -> option SessionDescription;
  libAddICECandidate : PeerConnection -> ICECandidateInit -> Lib -> GoError * Lib;
  libToJSON : ICECandidate -> ICECandidateInit;
  libWriteSample : TrackLocalStaticSample -> Sample -> Lib -> GoError * Lib;
  (* gorilla/websocket *)
  libWriteJSON : WSConn -> SignalingMessage SessionDescription ICECandidateInit
                 -> Lib -> GoError * Lib;
  (* net *)
  libListenUDP : string -> Z -> Lib -> Result UDPConn * Lib;
  libUDPClose : UDPConn -> Lib -> GoError * Lib;
  (* pion/rtp *)
  libUnmarshal : list byte -> Result Packet;
  (* pion samplebuilder: a pure data structure *)
  sbNew : Z -> Depacketizer -> Z -> SampleBuilder;
  sbPush : SampleBuilder -> Packet -> SampleBuilder;
  sbPop : SampleBuilder -> option Sample * SampleBuilder;
  (* a builder holds finitely many packets: every successful [Pop] uses some up *)
  sbPending : SampleBuilder -> nat;
  sbPop_consumes : forall sb s sb', sbPop sb = (Some s, sb') -> sbPending sb' < sbPending sb
}.

Section Relay.
Context {C : Collaborators}.

Definition Message := SignalingMessage SessionDescription ICECandidateInit.

(** ** Sessions *)

(** [WebRTCManager]. [mu] is [true] while the mutex is held. *)
Record WebRTCManager := {
  peerConnection : option PeerConnection;
  videoTrack : option TrackLocalStaticSample;
  audioTrack : option TrackLocalStaticSample;
  wsConn : option WSConn;
  mu : bool;
  udpListener : option UDPConn;
  stopChan : option Chan
}.

(** Assignments to single fields. *)
Definition setVideoTrack (t : option TrackLocalStaticSample) (m : WebRTCManager) :=
  {| peerConnection := peerConnection m; videoTrack := t; audioTrack := audioTrack m;
     wsConn := wsConn m; mu := mu m; udpListener := udpListener m;
     stopChan := stopChan m |}.

Definition setAudioTrack (t : option TrackLocalStaticSample) (m : WebRTCManager) :=
  {| peerConnection := peerConnection m; videoTrack := videoTrack m; audioTrack := t;
     wsConn := wsConn m; mu := mu m; udpListener := udpListener m;
     stopChan := stopChan m |}.

Definition setMu (held : bool) (m : WebRTCManager) :=
  {| peerConnection := peerConnection m; videoTrack := videoTrack m;
     audioTrack := audioTrack m; wsConn := wsConn m; mu := held;
     udpListener := udpListener m; stopChan := stopChan m |}.

Definition setUdpListener (conn : option UDPConn) (m : WebRTCManager) :=
  {| peerConnection := peerConnection m; videoTrack := videoTrack m;
     audioTrack := audioTrack m; wsConn := wsConn m; mu := mu m;
     udpListener := conn; stopChan := stopChan m |}.

Definition setStopChan (c : option Chan) (m : WebRTCManager) :=
  {| peerConnection := peerConnection m; videoTrack := videoTrack m;
     audioTrack := audioTrack m; wsConn := wsConn m; mu := mu m;
     udpListener := udpListener m; stopChan := c |}.

(** The zero value of the struct. *)
Definition zeroManager : WebRTCManager :=
  {| peerConnection := None; videoTrack := None; audioTrack := None;
     wsConn := None; mu := false; udpListener := None; stopChan := None |}.

(** Calls into the collaborators and log lines, in program order. *)
Inductive Event :=
| EvRegisterDefaultCodecs
| EvNewPeerConnection (config : Configuration)
| EvNewTrackLocalStaticSample (mime id streamID : string)
| EvAddTrack (t : TrackLocalStaticSample)
| EvClose                                   (* peerConnection.Close() *)
| EvOnICECandidate
| EvOnICEConnectionStateChange
| EvSetRemoteDescription (sd : SessionDescription)
| EvCreateAnswer
| EvSetLocalDescription (sd : SessionDescription)
| EvGatheringComplete                       (* the receive on the promise returned *)
| EvAddICECandidate (c : ICECandidateInit)
| EvLock
| EvUnlock
| EvWriteJSON (msg : Message)
| EvLog (line : string)
| EvGo (task : string)
| EvCloseChan                               (* close(m.stopChan) *)
| EvListenUDP (ip : string) (port : Z)
| EvUDPClose
| EvSetReadDeadline (ms : Z)
| EvReadFrom
| EvSampleBuilderNew (maxLate : Z) (d : Depacketizer) (sampleRate : Z)
| EvWriteSample (t : TrackLocalStaticSample) (s : Sample).

(** One session: the manager object everybody holds a pointer to, the hidden
    state of the collaborators, and the trace so far. *)
Record World := {
  mgr : WebRTCManager;
  lib : Lib;
  trace : list Event
}.

Definition initWorld (l : Lib) : World :=
  {| mgr := zeroManager; lib := l; trace := [] |}.

(** ** The monad: state, panics and blocking *)


Definition M (A : Type) := World -> Outcome A * World.

Definition ret {A} (a : A) : M A := fun w => (Ok a, w).

Definition bind {A B} (c : M A) (k : A -> M B) : M B :=
  fun w =>
    match c w with
    | (Ok a, w') => k a w'
    | (Panic s, w') => (Panic s, w')
    | (Blocked, w') => (Blocked, w')
    end.

Notation "x <- c ;; k" := (bind c (fun x => k))
  (at level 61, c at next level, right associativity).
Notation "c ;;; k" := (bind c (fun _ => k))
  (at level 61, right associativity).

Definition panic {A} (msg : string) : M A := fun w => (Panic msg, w).

(** A goroutine that can never proceed. *)
Definition block {A} : M A := fun w => (Blocked, w).

(** [defer d] around [body]: [d] runs when [body] returns or panics; a
    blocked goroutine never reaches its deferred calls. *)
Definition withDefer {A} (body : M A) (d : M unit) : M A :=
  fun w =>
    match body w with
    | (Ok a, w') =>
        match d w' with
        | (Ok _, w'') => (Ok a, w'')
        | (Panic s, w'') => (Panic s, w'')
        | (Blocked, w'') => (Blocked, w'')
        end
    | (Panic s, w') =>
        match d w' with
        | (Ok _, w'') => (Panic s, w'')
        | (Panic s', w'') => (Panic s', w'')
        | (Blocked, w'') => (Blocked, w'')
        end
    | (Blocked, w') => (Blocked, w')
    end.

Definition nilDereference : string :=
  "runtime error: invalid memory address or nil pointer dereference".

Definition emit (e : Event) : M unit :=
  fun w => (Ok tt, {| mgr := mgr w; lib := lib w; trace := trace w ++ [e] |}).

(** A call into a collaborator: recorded, then answered by the library. *)
Definition call {A} (e : Event) (f : Lib -> A * Lib) : M A :=
  fun w =>
    let (a, l') := f (lib w) in
    (Ok a, {| mgr := mgr w; lib := l'; trace := trace w ++ [e] |}).

Definition logPrintf (line : string) : M unit := emit (EvLog line).

Definition getMgr : M WebRTCManager := fun w => (Ok (mgr w), w).

Definition getLib : M Lib := fun w => (Ok (lib w), w).

Definition setMgr (m : WebRTCManager) : M unit :=
  fun w => (Ok tt, {| mgr := m; lib := lib w; trace := trace w |}).

(** Method call through a pointer that may be [nil]. *)
Definition deref {A B} (p : option A) (k : A -> M B) : M B :=
  match p with
  | Some a => k a
  | None => panic nilDereference
  end.

(** [m.mu.Lock()] / [m.mu.Unlock()]. *)
Definition Lock : M unit :=
  m <- getMgr ;;
  if mu m then block
  else setMgr (setMu true m) ;;; emit EvLock.

Definition Unlock : M unit :=
  m <- getMgr ;;
  if mu m then setMgr (setMu false m) ;;; emit EvUnlock
  else panic "sync: unlock of unlocked mutex".

(** ** [newWebRTCManager] *)

Definition stunConfig : Configuration := [["stun:stun.l.google.com:19302"]].

(** The pointer returned by [newWebRTCManager]; the object lives in [mgr]. *)
Inductive ManagerPtr := ManagerRef.

Definition NewTrackLocalStaticSample (mime id streamID : string)
  : M (Result TrackLocalStaticSample) :=
  err <- call (EvNewTrackLocalStaticSample mime id streamID)
              (libNewTrackLocalStaticSample mime id streamID) ;;
  match err with
  | Some e => ret (inl e)
  | None => ret (inr {| trackMimeType := mime; trackID := id; trackStreamID := streamID |})
  end.

Definition pcClose (pc : PeerConnection) : M GoError := call EvClose (libClose pc).

Definition newWebRTCManager (ws : option WSConn) : M (option ManagerPtr * GoError) :=
  err <- call EvRegisterDefaultCodecs libRegisterDefaultCodecs ;;
  match err with
  | Some e => ret (None, Errorf "failed to register default codecs: " e)
  | None =>
  r <- call (EvNewPeerConnection stunConfig) (libNewPeerConnection stunConfig) ;;
  match r with
  | inl e => ret (None, Errorf "failed to create peer connection: " e)
  | inr pc =>
  setMgr {| peerConnection := Some pc; videoTrack := None; audioTrack := None;
            wsConn := ws; mu := false; udpListener := None;
            stopChan := Some ChanOpen |} ;;;
  r <- NewTrackLocalStaticSample MimeTypeVP8 "video" "pion" ;;
  match r with
  | inl e =>
      pcClose pc ;;;
      ret (None, Errorf "failed to create video track: " e)
  | inr video =>
  m <- getMgr ;;
  setMgr (setVideoTrack (Some video) m) ;;;
  r <- NewTrackLocalStaticSample MimeTypeOpus "audio" "pion" ;;
  match r with
  | inl e =>
      pcClose pc ;;;
      ret (None, Errorf "failed to create audio track: " e)
  | inr audio =>
  m <- getMgr ;;
  setMgr (setAudioTrack (Some audio) m) ;;;
  err <- call (EvAddTrack video) (libAddTrack pc video) ;;
  match err with
  | Some e =>
      pcClose pc ;;;
      ret (None, Errorf "failed to add video track: " e)
  | None =>
  err <- call (EvAddTrack audio) (libAddTrack pc audio) ;;
  match err with
  | Some e =>
      pcClose pc ;;;
      ret (None, Errorf "failed to add audio track: " e)
  | None =>
  emit EvOnICECandidate ;;;
  emit EvOnICEConnectionStateChange ;;;
  ret (Some ManagerRef, None)
  end end end end end end.

(** The closure registered with [OnICECandidate]; it runs on the library's
    own goroutine whenever a local candidate is found. *)
Definition onICECandidate (ws : option WSConn) (candidate : option ICECandidate) : M unit :=
  match candidate with
  | None => ret tt
  | Some c =>
      let msg : Message :=
        {| Type_ := "ice"; SDP := None; ICE := Some (libToJSON c); Error_ := "" |} in
      Lock ;;;
      withDefer
        (deref ws (fun conn =>
           err <- call (EvWriteJSON msg) (libWriteJSON conn msg) ;;
           match err with
           | Some e => logPrintf ("Failed to send ICE candidate: " ++ e)
           | None => ret tt
           end))
        Unlock
  end.

(** ** Signaling *)

(** The receive on [webrtc.GatheringCompletePromise(pc)]: it returns when the
    library has finished gathering, and not before. *)
Definition awaitGatheringComplete (pc : PeerConnection) : M unit :=
  fun w =>
    match libGatheringComplete pc (lib w) with
    | Some l' => (Ok tt, {| mgr := mgr w; lib := l';
                            trace := trace w ++ [EvGatheringComplete] |})
    | None => (Blocked, w)
    end.

Definition handleOffer (offer : option SessionDescription) : M GoError :=
  m <- getMgr ;;
  deref offer (fun sd =>
  deref (peerConnection m) (fun pc =>
  err <- call (EvSetRemoteDescription sd) (libSetRemoteDescription pc sd) ;;
  match err with
  | Some e => ret (Errorf "failed to set remote description: " e)
  | None =>
  r <- call EvCreateAnswer (libCreateAnswer pc) ;;
  match r with
  | inl e => ret (Errorf "failed to create answer: " e)
  | inr answer =>
  err <- call (EvSetLocalDescription answer) (libSetLocalDescription pc answer) ;;
  match err with
  | Some e => ret (Errorf "failed to set local description: " e)
  | None =>
  awaitGatheringComplete pc ;;;
  l <- getLib ;;
  let msg : Message :=
    {| Type_ := "answer"; SDP := libLocalDescription pc l; ICE := None; Error_ := "" |} in
  Lock ;;;
  withDefer
    (deref (wsConn m) (fun conn =>
       err <- call (EvWriteJSON msg) (libWriteJSON conn msg) ;;
       match err with
       | Some e => ret (Errorf "failed to send answer: " e)
       | None => ret None
       end))
    Unlock
  end end end)).

Definition handleICECandidate (candidate : option ICECandidateInit) : M GoError :=
  match candidate with
  | None => ret None
  | Some c =>
      m <- getMgr ;;
      deref (peerConnection m) (fun pc =>
        call (EvAddICECandidate c) (libAddICECandidate pc c))
  end.

Definition handleSignalingMessage (msg : Message) : M GoError :=
  if String.eqb (Type_ msg) "offer" then handleOffer (SDP msg)
  else if String.eqb (Type_ msg) "ice" then handleICECandidate (ICE msg)
  else ret (Errorf "unknown message type: " (Type_ msg)).

(** ** [close] *)

Definition close : M unit :=
  m <- getMgr ;;
  match stopChan m with
  | None => panic "close of nil channel"
  | Some ChanClosed => panic "close of closed channel"
  | Some ChanOpen =>
      setMgr (setStopChan (Some ChanClosed) m) ;;;
      emit EvCloseChan
  end ;;;
  match udpListener m with
  | Some conn => call EvUDPClose (libUDPClose conn) ;;; ret tt
  | None => ret tt
  end ;;;
  deref (peerConnection m) (fun pc =>
    err <- pcClose pc ;;
    match err with
    | Some e => logPrintf ("Error closing peer connection: " ++ e)
    | None => ret tt
    end).

(** ** The control-channel loop of [handleWebRTCConnection], on its own

    [inbox] are the messages [ReadJSON] decodes, in arrival order; the read
    after the last of them fails with [readErr] (the channel closed). *)
Fixpoint readLoop (inbox : list Message) (readErr : string) : M unit :=
  match inbox with
  | [] => logPrintf ("WebSocket read error: " ++ readErr)
  | msg :: rest =>
      err <- handleSignalingMessage msg ;;
      match err with
      | Some e =>
          logPrintf ("Failed to handle signaling message: " ++ e) ;;;
          readLoop rest readErr
      | None => readLoop rest readErr
      end
  end.

(** ** Media ingest: [handleMedia] *)

(** The two sample builders captured by the ingest goroutine. *)
Record Buffers := {
  videoBuffer : SampleBuilder;
  audioBuffer : SampleBuilder
}.

Definition samplebuilderNew (maxLate : Z) (d : Depacketizer) (sampleRate : Z)
  : M SampleBuilder :=
  emit (EvSampleBuilderNew maxLate d sampleRate) ;;;
  ret (sbNew maxLate d sampleRate).

(** [WriteSample] of the popped sample on [m.videoTrack] (or the audio one) with its log line;
    the track pointer is read from the manager at each write. *)
Definition writeSample (track : WebRTCManager -> option TrackLocalStaticSample)
  (what : string) (s : Sample) : M unit :=
  m <- getMgr ;;
  deref (track m) (fun t =>
    err <- call (EvWriteSample t s) (libWriteSample t s) ;;
    match err with
    | Some e => logPrintf ("Error writing " ++ what ++ " sample: " ++ e)
    | None => ret tt
    end).

(** A value together with the equation that names it. *)
Definition inspect {A} (a : A) : {b : A | a = b} := exist _ a eq_refl.

(** [for { sample := buf.Pop(); if sample == nil { break }; WriteSample }].
    It ends because every sample popped uses up pending packets. *)
Equations? drain (track : WebRTCManager -> option TrackLocalStaticSample)
  (what : string) (sb : SampleBuilder) (w : World)
  : Outcome SampleBuilder * World by wf (sbPending sb) lt :=
  drain track what sb w with inspect (sbPop sb) => {
    | exist _ (None, sb') _ => (Ok sb', w)
    | exist _ (Some s, sb') _ with writeSample track what s w => {
        | (Ok _, w') => drain track what sb' w'
        | (Panic e, w') => (Panic e, w')
        | (Blocked, w') => (Blocked, w') } }.
Proof. eapply sbPop_consumes; eassumption. Qed.

Inductive LoopStatus :=
| Continue (b : Buffers)      (* [continue], or the end of the loop body *)
| Return.                     (* the shutdown signal was seen *)

(** One iteration of the goroutine's [for { select { ... } }].  [r] is what
    [ReadFrom] yields if the iteration gets as far as reading.  A receive
    from a [nil] or open [stopChan] is not ready, so [default] is taken. *)
Definition ingestIteration (b : Buffers) (r : ReadResult) : M LoopStatus :=
  m <- getMgr ;;
  match stopChan m with
  | Some ChanClosed => ret Return
  | _ =>
      emit (EvSetReadDeadline 100) ;;;
      emit EvReadFrom ;;;
      match r with
      | ReadTimeout _ => ret (Continue b)
      | ReadError e =>
          logPrintf ("Error during read: " ++ e) ;;;
          ret (Continue b)
      | Datagram data =>
          match libUnmarshal (firstn 1500 data) with
          | inl e =>
              logPrintf ("Error unmarshaling RTP packet: " ++ e) ;;;
              ret (Continue b)
          | inr packet =>
              if (PayloadType packet =? 96)%Z then
                vb <- drain videoTrack "video" (sbPush (videoBuffer b) packet) ;;
                ret (Continue {| videoBuffer := vb; audioBuffer := audioBuffer b |})
              else if (PayloadType packet =? 111)%Z then
                ab <- drain audioTrack "audio" (sbPush (audioBuffer b) packet) ;;
                ret (Continue {| videoBuffer := videoBuffer b; audioBuffer := ab |})
              else ret (Continue b)
          end
      end
  end.

Inductive IngestStatus :=
| Running (b : Buffers)       (* still looping after the reads given *)
| Returned.

(** The goroutine, run over the results of its successive reads. *)
Fixpoint ingestLoop (b : Buffers) (reads : list ReadResult) : M IngestStatus :=
  match reads with
  | [] => ret (Running b)
  | r :: rest =>
      st <- ingestIteration b r ;;
      match st with
      | Continue b' => ingestLoop b' rest
      | Return => ret Returned
      end
  end.

(** [<-m.stopChan]: proceeds once the channel is closed. *)
Definition recvStopChan : M unit :=
  m <- getMgr ;;
  match stopChan m with
  | Some ChanClosed => ret tt
  | _ => block
  end.

(** [handleMedia], with the goroutine it starts run over [reads] before the
    final receive on [stopChan].  The receive blocks until [close] has closed
    the channel; only then does the deferred [Close] of the socket run. *)
Definition handleMedia (reads : list ReadResult) : M unit :=
  r <- call (EvListenUDP "127.0.0.1" 5004) (libListenUDP "127.0.0.1" 5004) ;;
  m <- getMgr ;;
  setMgr (setUdpListener (match r with inr conn => Some conn | inl _ => None end) m) ;;;
  match r with
  | inl e => logPrintf ("Failed to listen on UDP port: " ++ e)
  | inr conn =>
      withDefer
        (vb <- samplebuilderNew 10 VP8Packet 90000 ;;
         ab <- samplebuilderNew 10 OpusPacket 48000 ;;
         emit (EvGo "ingest") ;;;
         ingestLoop {| videoBuffer := vb; audioBuffer := ab |} reads ;;;
         recvStopChan)
        (call EvUDPClose (libUDPClose conn) ;;; ret tt)
  end.

(** ** The session: [handleWebRTCConnection]

    While [handleWebRTCConnection] sits in its read loop, two other
    goroutines work on the same manager: the task started by
    [go manager.handleMedia()] and the library's goroutine that runs the
    [OnICECandidate] callback.  A session is run over a list of [Turn]s
    that says in which order things happen; each turn is one atomic step of
    one goroutine. *)
Inductive Turn :=
| Inbound (msg : Message)                  (* [ReadJSON] delivers [msg] *)
| CandidateFound (c : option ICECandidate) (* the callback runs on [c] *)
| MediaStarts                      (* [handleMedia] runs up to starting its loop *)
| MediaReads (r : ReadResult).     (* the ingest loop makes one iteration *)

(** How far the task started by [go manager.handleMedia()] has got. *)
Inductive MediaTask :=
| MediaSpawned                                 (* not scheduled yet *)
| MediaLooping (conn : UDPConn) (b : Buffers)  (* socket open, loop running *)
| MediaOver.                                   (* returned, or stuck for good *)

(** [handleMedia] from its first line to the [go func()] that starts the
    loop. *)
Definition startMedia : M MediaTask :=
  r <- call (EvListenUDP "127.0.0.1" 5004) (libListenUDP "127.0.0.1" 5004) ;;
  m <- getMgr ;;
  setMgr (setUdpListener (match r with inr conn => Some conn | inl _ => None end) m) ;;;
  match r with
  | inl e => logPrintf ("Failed to listen on UDP port: " ++ e) ;;; ret MediaOver
  | inr conn =>
      vb <- samplebuilderNew 10 VP8Packet 90000 ;;
      ab <- samplebuilderNew 10 OpusPacket 48000 ;;
      emit (EvGo "ingest") ;;;
      ret (MediaLooping conn {| videoBuffer := vb; audioBuffer := ab |})
  end.

(** [handleMedia] once its loop has returned: the receive on [stopChan],
    then the deferred [Close] of the socket. *)
Definition finishMedia (conn : UDPConn) : M unit :=
  recvStopChan ;;;
  call EvUDPClose (libUDPClose conn) ;;;
  ret tt.

(** How the read loop is left: by [break] after a failed read, or not at
    all because a panic on another goroutine ended the process. *)
Inductive SessionEnd :=
| ReadFailed
| ProcessDied (msg : string).

(** A step [c] of another goroutine, seen from the read loop: when it
    returns the session goes on with its result; when it is stuck the
    session goes on without it; when it panics the process dies, and no
    deferred call of [handleWebRTCConnection] runs. *)
Definition elsewhere {A} (c : M A) (k : option A -> M SessionEnd) : M SessionEnd :=
  fun w =>
    match c w with
    | (Ok a, w') => k (Some a) w'
    | (Panic s, w') => (Ok (ProcessDied s), w')
    | (Blocked, w') => k None w'
    end.

(** The [for] loop of [handleWebRTCConnection] with the other goroutines'
    steps in between.  After the last turn [ReadJSON] fails with [readErr].
    A media turn that does not fit the state of the media task is skipped. *)
Fixpoint sessionLoop (ws : option WSConn) (task : MediaTask) (turns : list Turn)
  (readErr : string) : M SessionEnd :=
  match turns with
  | [] => logPrintf ("WebSocket read error: " ++ readErr) ;;; ret ReadFailed
  | Inbound msg :: rest =>
      err <- handleSignalingMessage msg ;;
      match err with
      | Some e =>
          logPrintf ("Failed to handle signaling message: " ++ e) ;;;
          sessionLoop ws task rest readErr
      | None => sessionLoop ws task rest readErr
      end
  | CandidateFound c :: rest =>
      elsewhere (onICECandidate ws c) (fun _ => sessionLoop ws task rest readErr)
  | MediaStarts :: rest =>
      match task with
      | MediaSpawned =>
          elsewhere startMedia (fun t =>
            sessionLoop ws (match t with Some t' => t' | None => MediaOver end)
              rest readErr)
      | _ => sessionLoop ws task rest readErr
      end
  | MediaReads r :: rest =>
      match task with
      | MediaLooping conn b =>
          elsewhere (ingestIteration b r) (fun st =>
            match st with
            | Some (Continue b') => sessionLoop ws (MediaLooping conn b') rest readErr
            | Some Return =>
                elsewhere (finishMedia conn) (fun _ =>
                  sessionLoop ws MediaOver rest readErr)
            | None => sessionLoop ws MediaOver rest readErr
            end)
      | _ => sessionLoop ws task rest readErr
      end
  end.


End Relay.

Notation "x <- c ;; k" := (bind c (fun x => k))
  (at level 61, c at next level, right associativity).
Notation "c ;;; k" := (bind c (fun _ => k))
  (at level 61, right associativity).

(** ** Pure views of the drain loop and of traces *)

Section Views.
Context {C : Collaborators}.

(** Everything a builder is willing to emit now, and the builder left. *)
Equations? popAll (sb : SampleBuilder) : list Sample * SampleBuilder
  by wf (sbPending sb) lt :=
  popAll sb with inspect (sbPop sb) => {
    | exist _ (None, sb') _ => ([], sb')
    | exist _ (Some s, sb') _ => (s :: fst (popAll sb'), snd (popAll sb')) }.
Proof. all: eapply sbPop_consumes; eassumption. Qed.

(** Writing a list of samples to track [t], logging each failed write. *)
Fixpoint writeAll (t : TrackLocalStaticSample) (what : string)
  (samples : list Sample) (w : World) : World :=
  match samples with
  | [] => w
  | s :: rest =>
      let (err, l') := libWriteSample t s (lib w) in
      let tr := (trace w ++ [EvWriteSample t s])%list in
      writeAll t what rest
        {| mgr := mgr w; lib := l';
           trace := match err with
                    | Some e => (tr ++ [EvLog ("Error writing " ++ what ++ " sample: " ++ e)])%list
                    | None => tr
                    end |}
  end.

(** The world after [SetReadDeadline] and [ReadFrom] were called. *)
Definition afterRead (w : World) : World :=
  {| mgr := mgr w; lib := lib w;
     trace := trace w ++ [EvSetReadDeadline 100; EvReadFrom] |}.

Definition logged (line : string) (w : World) : World :=
  {| mgr := mgr w; lib := lib w; trace := trace w ++ [EvLog line] |}.

(** Messages written to the control channel, in order. *)
Fixpoint sent (tr : list Event) : list Message :=
  match tr with
  | [] => []
  | EvWriteJSON msg :: rest => msg :: sent rest
  | _ :: rest => sent rest
  end.

(** Tracks registered on the peer connection, in order. *)
Fixpoint tracksAdded (tr : list Event) : list TrackLocalStaticSample :=
  match tr with
  | [] => []
  | EvAddTrack t :: rest => t :: tracksAdded rest
  | _ :: rest => tracksAdded rest
  end.

(** Sample builders constructed, in order. *)
Fixpoint buildersMade (tr : list Event) : list (Z * Depacketizer * Z) :=
  match tr with
  | [] => []
  | EvSampleBuilderNew n d r :: rest => (n, d, r) :: buildersMade rest
  | _ :: rest => buildersMade rest
  end.

(** Calls that take part in an offer/answer negotiation. *)
Definition isNegotiation (e : Event) : bool :=
  match e with
  | EvSetRemoteDescription _ | EvCreateAnswer | EvSetLocalDescription _
  | EvGatheringComplete => true
  | _ => false
  end.

Definition isAddTrack (e : Event) : bool :=
  match e with EvAddTrack _ => true | _ => false end.

Definition isLog (e : Event) : bool :=
  match e with EvLog _ => true | _ => false end.

Definition isClose (e : Event) : bool :=
  match e with EvClose => true | _ => false end.

Definition isUDPClose (e : Event) : bool :=
  match e with EvUDPClose => true | _ => false end.

(** What the ingest goroutine does to the outside world. *)
Definition isIngestEvent (e : Event) : bool :=
  match e with
  | EvSetReadDeadline _ | EvReadFrom | EvLog _ | EvWriteSample _ _ => true
  | _ => false
  end.

(** The two tracks [newWebRTCManager] creates. *)
Definition theVideoTrack : TrackLocalStaticSample :=
  {| trackMimeType := MimeTypeVP8; trackID := "video"; trackStreamID := "pion" |}.
Definition theAudioTrack : TrackLocalStaticSample :=
  {| trackMimeType := MimeTypeOpus; trackID := "audio"; trackStreamID := "pion" |}.

(** Worlds the control task can be in: a freshly constructed session, then
    any number of signaling messages handled and candidate callbacks run. *)
Inductive Reachable (ws : option WSConn) (l0 : Lib) : World -> Prop :=
| ReachNew w :
    newWebRTCManager ws (initWorld l0) = (Ok (Some ManagerRef, None), w) ->
    Reachable ws l0 w
| ReachMessage w msg err w' :
    Reachable ws l0 w ->
    handleSignalingMessage msg w = (Ok err, w') ->
    Reachable ws l0 w'
| ReachCandidate w c w' :
    Reachable ws l0 w ->
    onICECandidate ws c w = (Ok tt, w') ->
    Reachable ws l0 w'
| ReachMediaStart w o w' :           (* the ingest task got as far as its loop *)
    Reachable ws l0 w ->
    handleMedia [] w = (o, w') ->
    Reachable ws l0 w'
| ReachIngest w b r st w' :          (* the ingest loop made one more iteration *)
    Reachable ws l0 w ->
    ingestIteration b r w = (Ok st, w') ->
    Reachable ws l0 w'.

(** The trace starts with a part in which exactly the video and the audio
    track were added and nothing was negotiated; no track is added later. *)
Definition TracksAddedBeforeNegotiation (tr : list Event) : Prop :=
  exists pre post,
    tr = (pre ++ post)%list
    /\ tracksAdded pre = [theVideoTrack; theAudioTrack]
    /\ filter isNegotiation pre = []
    /\ tracksAdded post = [].

(** What holds of a session between two steps of its tasks: the manager's
    pointers are set, the mutex is free, and the trace splits into a
    construction part, where exactly the video and the audio track were
    added and nothing was negotiated, and a rest where no track is added. *)
Definition SessionInv (ws : option WSConn) (w : World) : Prop :=
  (exists pc, peerConnection (mgr w) = Some pc)
  /\ wsConn (mgr w) = ws
  /\ mu (mgr w) = false
  /\ videoTrack (mgr w) = Some theVideoTrack
  /\ audioTrack (mgr w) = Some theAudioTrack
  /\ TracksAddedBeforeNegotiation (trace w).

(** [w'] extends [w] by events of the ingest loop only (reads, sample
    writes and log lines) and leaves the manager alone. *)
Definition extendsQuietly (w w' : World) : Prop :=
  mgr w' = mgr w
  /\ exists delta, trace w' = (trace w ++ delta)%list /\ forallb isIngestEvent delta = true.

(** The fields the control task relies on are the same in both managers. *)
Definition sameHandles (m m' : WebRTCManager) : Prop :=
  peerConnection m' = peerConnection m
  /\ wsConn m' = wsConn m
  /\ mu m' = mu m
  /\ videoTrack m' = videoTrack m
  /\ audioTrack m' = audioTrack m.

(** A step of the control task that returned: the manager is as before and
    no track was added. *)
Definition controlFrame {A} (w : World) (r : Outcome A * World) : Prop :=
  match fst r with
  | Ok _ =>
      mgr (snd r) = mgr w
      /\ exists delta, trace (snd r) = (trace w ++ delta)%list /\ tracksAdded delta = []
  | _ => True
  end.

(** The answer [handleOffer] writes once gathering is over in state [l]. *)
Definition answerMessage (pc : PeerConnection) (l : Lib) : Message :=
  {| Type_ := "answer"; SDP := libLocalDescription pc l; ICE := None; Error_ := "" |}.

(** What [handleOffer sd] does in [w] when the local description was set in
    library state [l3]: if gathering completes (in [l4]) it returns having
    written the one answer, after [EvGatheringComplete]; if not it is
    blocked and has written nothing. *)
Definition AnswersOnceAfterGathering (conn : WSConn) (pc : PeerConnection)
  (sd answer : SessionDescription) (l3 : Lib) (w : World) : Prop :=
  exists o w' delta,
    handleOffer (Some sd) w = (o, w')
    /\ trace w' = (trace w ++ delta)%list
    /\ tracksAdded delta = []
    /\ match libGatheringComplete pc l3 with
       | Some l4 =>
           o = Ok match fst (libWriteJSON conn (answerMessage pc l4) l4) with
                  | Some e => Errorf "failed to send answer: " e
                  | None => None
                  end
           /\ delta = [EvSetRemoteDescription sd; EvCreateAnswer;
                       EvSetLocalDescription answer; EvGatheringComplete;
                       EvLock; EvWriteJSON (answerMessage pc l4); EvUnlock]
           /\ sent delta = [answerMessage pc l4]
           /\ Type_ (answerMessage pc l4) = "answer"
           /\ SDP (answerMessage pc l4) = libLocalDescription pc l4
           /\ lib w' = snd (libWriteJSON conn (answerMessage pc l4) l4)
       | None => o = Blocked /\ sent delta = []
       end.

(** The manager as allocated right after the peer connection was created,
    before any track is stored in it. *)
Definition allocatedManager (pc : PeerConnection) (ws : option WSConn) : WebRTCManager :=
  {| peerConnection := Some pc; videoTrack := None; audioTrack := None;
     wsConn := ws; mu := false; udpListener := None; stopChan := Some ChanOpen |}.

(** The world [close] leaves when it finds the shutdown channel open and
    peer connection [pc]: the channel closed; the socket closed if there is
    one, whatever that call returns; the peer connection closed, and a log
    line if that call failed. *)
Definition afterClose (pc : PeerConnection) (w : World) : World :=
  let l1 := match udpListener (mgr w) with
            | Some conn => snd (libUDPClose conn (lib w))
            | None => lib w
            end in
  {| mgr := setStopChan (Some ChanClosed) (mgr w);
     lib := snd (libClose pc l1);
     trace := trace w
              ++ [EvCloseChan]
              ++ match udpListener (mgr w) with
                 | Some _ => [EvUDPClose]
                 | None => []
                 end
              ++ [EvClose]
              ++ match fst (libClose pc l1) with
                 | Some e => [EvLog ("Error closing peer connection: " ++ e)]
                 | None => []
                 end |}.

(** *** Further views, for the session as a whole *)



(** Samples handed to tracks, with the track, in order. *)
Fixpoint samplesWritten (tr : list Event) : list (TrackLocalStaticSample * Sample) :=
  match tr with
  | [] => []
  | EvWriteSample t s :: rest => (t, s) :: samplesWritten rest
  | _ :: rest => samplesWritten rest
  end.

(** The mutex discipline along a trace, starting with the mutex [held] or
    not: [Lock] only when free, [Unlock] only when held, and every write to
    the control channel while held.  [Some h] says the discipline was kept
    and the mutex ends up [h]; [None] says it was broken. *)
Fixpoint lockScan (held : bool) (tr : list Event) : option bool :=
  match tr with
  | [] => Some held
  | EvLock :: rest => if held then None else lockScan true rest
  | EvUnlock :: rest => if held then lockScan false rest else None
  | EvWriteJSON _ :: rest => if held then lockScan held rest else None
  | _ :: rest => lockScan held rest
  end.

(** Calls that shut something down. *)
Definition isTeardown (e : Event) : bool :=
  match e with
  | EvClose | EvCloseChan | EvUDPClose => true
  | _ => false
  end.


(** The manager [newWebRTCManager] hands out. *)
Definition freshManager (pc : PeerConnection) (ws : option WSConn) : WebRTCManager :=
  {| peerConnection := Some pc; videoTrack := Some theVideoTrack;
     audioTrack := Some theAudioTrack; wsConn := ws; mu := false;
     udpListener := None; stopChan := Some ChanOpen |}.

(** What one signaling step (a message handled, a candidate callback run)
    does to a session, however it ends: the manager is as before, so the
    mutex is free again; no track was added and nothing was shut down; and
    the mutex discipline was kept. *)
Definition SignalingStep (w w' : World) : Prop :=
  mgr w' = mgr w
  /\ exists delta,
       trace w' = (trace w ++ delta)%list
       /\ tracksAdded delta = []
       /\ filter isTeardown delta = []
       /\ lockScan false delta = Some false.

End Views.

(** ** A small executable collaborator

    A stand-in for the libraries that can be run: the peer connection
    remembers its tracks and descriptions, the control channel its outbox,
    and each operation fails when its name is listed in [faults].  Its
    sample builder is a plain queue that turns every packet into one sample.
    It serves to run the model on concrete sessions. *)
Module Toy.

Record ToyLib := {
  faults : list string;
  tracks : list TrackLocalStaticSample;
  remoteDescription : option string;
  localDescription : option string;
  gathered : bool;
  candidates : list string;
  outbox : list (SignalingMessage string string);
  written : list (TrackLocalStaticSample * Packet);
  listening : bool;
  closed : bool
}.

Definition fails (op : string) (l : ToyLib) : bool :=
  existsb (String.eqb op) (faults l).

Definition status (op : string) (l : ToyLib) : GoError :=
  if fails op l then Some (op ++ " failed") else None.

Definition fresh (fs : list string) : ToyLib :=
  {| faults := fs; tracks := []; remoteDescription := None; localDescription := None;
     gathered := false; candidates := []; outbox := []; written := [];
     listening := false; closed := false |}.

Definition addTrack (t : TrackLocalStaticSample) (l : ToyLib) : GoError * ToyLib :=
  if fails ("AddTrack " ++ trackID t) l then (Some ("AddTrack " ++ trackID t ++ " failed"), l)
  else (None,
        {| faults := faults l; tracks := tracks l ++ [t];
           remoteDescription := remoteDescription l; localDescription := localDescription l;
           gathered := gathered l; candidates := candidates l; outbox := outbox l;
           written := written l; listening := listening l; closed := closed l |}).

Definition closePC (l : ToyLib) : GoError * ToyLib :=
  (status "Close" l,
   {| faults := faults l; tracks := tracks l;
      remoteDescription := remoteDescription l; localDescription := localDescription l;
      gathered := gathered l; candidates := candidates l; outbox := outbox l;
      written := written l; listening := listening l; closed := true |}).

Definition setRemote (sd : string) (l : ToyLib) : GoError * ToyLib :=
  if fails "SetRemoteDescription" l then (Some "SetRemoteDescription failed", l)
  else (None,
        {| faults := faults l; tracks := tracks l;
           remoteDescription := Some sd; localDescription := localDescription l;
           gathered := gathered l; candidates := candidates l; outbox := outbox l;
           written := written l; listening := listening l; closed := closed l |}).

(** The answer names the tracks registered so far. *)
Definition createAnswer (l : ToyLib) : Result string * ToyLib :=
  if fails "CreateAnswer" l then (inl "CreateAnswer failed", l)
  else (inr ("answer:" ++ String.concat "," (map trackID (tracks l))), l).

Definition setLocal (sd : string) (l : ToyLib) : GoError * ToyLib :=
  if fails "SetLocalDescription" l then (Some "SetLocalDescription failed", l)
  else (None,
        {| faults := faults l; tracks := tracks l;
           remoteDescription := remoteDescription l; localDescription := Some sd;
           gathered := gathered l; candidates := candidates l; outbox := outbox l;
           written := written l; listening := listening l; closed := closed l |}).

Definition gatheringComplete (l : ToyLib) : option ToyLib :=
  if fails "Gathering" l then None
  else Some
        {| faults := faults l; tracks := tracks l;
           remoteDescription := remoteDescription l; localDescription := localDescription l;
           gathered := true; candidates := candidates l; outbox := outbox l;
           written := written l; listening := listening l; closed := closed l |}.

Definition getLocalDescription (l : ToyLib) : option string :=
  match localDescription l with
  | Some sd => Some (if gathered l then sd ++ ";gathered" else sd)
  | None => None
  end.

Definition addICECandidate (c : string) (l : ToyLib) : GoError * ToyLib :=
  if fails "AddICECandidate" l then (Some "AddICECandidate failed", l)
  else (None,
        {| faults := faults l; tracks := tracks l;
           remoteDescription := remoteDescription l; localDescription := localDescription l;
           gathered := gathered l; candidates := candidates l ++ [c]; outbox := outbox l;
           written := written l; listening := listening l; closed := closed l |}).

Definition writeJSON (msg : SignalingMessage string string) (l : ToyLib)
  : GoError * ToyLib :=
  if fails "WriteJSON" l then (Some "WriteJSON failed", l)
  else (None,
        {| faults := faults l; tracks := tracks l;
           remoteDescription := remoteDescription l; localDescription := localDescription l;
           gathered := gathered l; candidates := candidates l; outbox := outbox l ++ [msg];
           written := written l; listening := listening l; closed := closed l |}).

Definition writeSample (t : TrackLocalStaticSample) (s : Packet) (l : ToyLib)
  : GoError * ToyLib :=
  if fails "WriteSample" l then (Some "WriteSample failed", l)
  else (None,
        {| faults := faults l; tracks := tracks l;
           remoteDescription := remoteDescription l; localDescription := localDescription l;
           gathered := gathered l; candidates := candidates l; outbox := outbox l;
           written := written l ++ [(t, s)]; listening := listening l; closed := closed l |}).

Definition listenUDP (l : ToyLib) : Result unit * ToyLib :=
  if fails "ListenUDP" l then (inl "ListenUDP failed", l)
  else (inr tt,
        {| faults := faults l; tracks := tracks l;
           remoteDescription := remoteDescription l; localDescription := localDescription l;
           gathered := gathered l; candidates := candidates l; outbox := outbox l;
           written := written l; listening := true; closed := closed l |}).

Definition closeUDP (l : ToyLib) : GoError * ToyLib :=
  (if listening l then None else Some "use of closed network connection",
   {| faults := faults l; tracks := tracks l;
      remoteDescription := remoteDescription l; localDescription := localDescription l;
      gathered := gathered l; candidates := candidates l; outbox := outbox l;
      written := written l; listening := false; closed := closed l |}).

(** A two-byte wire format: payload type, then sequence number. *)
Definition unmarshal (data : list byte) : Result Packet :=
  match data with
  | pt :: sn :: payload =>
      inr {| PayloadType := Z.of_N (Byte.to_N pt); SequenceNumber := Z.of_N (Byte.to_N sn);
             Timestamp := 0; Marker := false; Payload := payload |}
  | _ => inl "RTP header size insufficient"
  end.

Definition pop (q : list Packet) : option Packet * list Packet :=
  match q with
  | [] => (None, [])
  | p :: rest => (Some p, rest)
  end.

Lemma pop_consumes (q : list Packet) (s : Packet) (q' : list Packet) :
  pop q = (Some s, q') -> length q' < length q.
Proof.
  destruct q as [|p rest]; simpl; intros H; inversion H; subst; simpl; lia.
Qed.

#[export] Instance collab : Collaborators := {|
  SessionDescription := string;
  ICECandidateInit := string;
  ICECandidate := string;
  PeerConnection := unit;
  WSConn := unit;
  UDPConn := unit;
  Sample := Packet;
  SampleBuilder := list Packet;
  Lib := ToyLib;
  libRegisterDefaultCodecs := fun l => (status "RegisterDefaultCodecs" l, l);
  libNewPeerConnection := fun _ l =>
    (if fails "NewPeerConnection" l then inl "NewPeerConnection failed" else inr tt, l);
  libNewTrackLocalStaticSample := fun _ id _ l => (status ("NewTrack " ++ id) l, l);
  libAddTrack := fun _ => addTrack;
  libClose := fun _ => closePC;
  libSetRemoteDescription := fun _ => setRemote;
  libCreateAnswer := fun _ => createAnswer;
  libSetLocalDescription := fun _ => setLocal;
  libGatheringComplete := fun _ => gatheringComplete;
  libLocalDescription := fun _ => getLocalDescription;
  libAddICECandidate := fun _ => addICECandidate;
  libToJSON := fun c => c;
  libWriteSample := writeSample;
  libWriteJSON := fun _ => writeJSON;
  libListenUDP := fun _ _ => listenUDP;
  libUDPClose := fun _ => closeUDP;
  libUnmarshal := unmarshal;
  sbNew := fun _ _ _ => [];
  sbPush := fun q p => (q ++ [p])%list;
  sbPop := pop;
  sbPending := @length Packet;
  sbPop_consumes := pop_consumes
|}.

(** A session constructed without faults, on control channel [tt]. *)
Definition session (fs : list string) : World :=
  snd (newWebRTCManager (Some tt) (initWorld (fresh fs))).

Definition offerMsg : Message :=
  {| Type_ := "offer"; SDP := Some "offer-sdp"; ICE := None; Error_ := "" |}.

Definition bogusMsg : Message :=
  {| Type_ := "bogus"; SDP := None; ICE := None; Error_ := "" |}.

Definition noSdpOffer : Message :=
  {| Type_ := "offer"; SDP := None; ICE := None; Error_ := "" |}.

Definition endOfCandidates : Message :=
  {| Type_ := "ice"; SDP := None; ICE := None; Error_ := "" |}.

Definition emptyBuffers : Buffers := {| videoBuffer := []; audioBuffer := [] |}.

End Toy.
(** * Properties *)

Section Properties.
Context {C : Collaborators}.

(** Evaluate the monadic plumbing, leaving calls into the library alone. *)
Ltac plumb :=
  unfold bind, ret, panic, logPrintf, emit, call, getMgr, setMgr, deref, pcClose,
         Errorf in *;
  cbn [mgr lib trace fst snd peerConnection videoTrack audioTrack wsConn mu
       udpListener stopChan] in *.

(** *** How the primitives run *)

Lemma bind_ret {A B} (a : A) (k : A -> M B) (w : World) :
  bind (ret a) k w = k a w.
Proof. reflexivity. Qed.

Lemma bind_panic {A B} (s : string) (k : A -> M B) (w : World) :
  bind (panic s) k w = (Panic s, w).
Proof. reflexivity. Qed.

Lemma bind_bind {A B D} (c : M A) (k : A -> M B) (k' : B -> M D) (w : World) :
  bind (bind c k) k' w = bind c (fun a => bind (k a) k') w.
Proof.
  unfold bind. destruct (c w) as [[a| |] w1]; reflexivity.
Qed.

Lemma call_run {A} (e : Event) (f : Lib -> A * Lib) (w : World) :
  call e f w
  = (Ok (fst (f (lib w))),
     {| mgr := mgr w; lib := snd (f (lib w)); trace := trace w ++ [e] |}).
Proof. unfold call. destruct (f (lib w)); reflexivity. Qed.

Lemma bind_call {A B} (e : Event) (f : Lib -> A * Lib) (k : A -> M B) (w : World) :
  bind (call e f) k w
  = k (fst (f (lib w)))
      {| mgr := mgr w; lib := snd (f (lib w)); trace := trace w ++ [e] |}.
Proof. unfold bind. rewrite call_run. reflexivity. Qed.

Lemma bind_emit {B} (e : Event) (k : unit -> M B) (w : World) :
  bind (emit e) k w
  = k tt {| mgr := mgr w; lib := lib w; trace := trace w ++ [e] |}.
Proof. reflexivity. Qed.

Lemma bind_logPrintf {B} (line : string) (k : unit -> M B) (w : World) :
  bind (logPrintf line) k w = k tt (logged line w).
Proof. reflexivity. Qed.

Lemma bind_getMgr {B} (k : WebRTCManager -> M B) (w : World) :
  bind getMgr k w = k (mgr w) w.
Proof. reflexivity. Qed.

Lemma bind_setMgr {B} (m : WebRTCManager) (k : unit -> M B) (w : World) :
  bind (setMgr m) k w = k tt {| mgr := m; lib := lib w; trace := trace w |}.
Proof. reflexivity. Qed.

Lemma bind_getLib {B} (k : Lib -> M B) (w : World) : bind getLib k w = k (lib w) w.
Proof. reflexivity. Qed.

Lemma bind_await {B} (pc : PeerConnection) (k : unit -> M B) (w : World) :
  bind (awaitGatheringComplete pc) k w
  = match libGatheringComplete pc (lib w) with
    | Some l' => k tt {| mgr := mgr w; lib := l'; trace := trace w ++ [EvGatheringComplete] |}
    | None => (Blocked, w)
    end.
Proof.
  unfold bind, awaitGatheringComplete. destruct (libGatheringComplete pc (lib w)); reflexivity.
Qed.

(** Run the program in the goal up to its next case distinction. *)
Ltac tidy :=
  cbv beta;
  cbn [mgr lib trace fst snd peerConnection videoTrack audioTrack wsConn mu
       udpListener stopChan deref].

Ltac run :=
  tidy;
  repeat (first
    [ rewrite bind_bind | rewrite bind_ret | rewrite bind_panic | rewrite bind_call
    | rewrite bind_emit | rewrite bind_logPrintf | rewrite bind_getMgr
    | rewrite bind_setMgr | rewrite bind_getLib | rewrite bind_await
    | rewrite call_run ];
    tidy).

(** Split on the result of the library call the program is waiting for. *)
Ltac libcase :=
  match goal with
  | |- context [match fst ?c with _ => _ end] =>
      let r := fresh "r" in
      let l := fresh "l" in
      destruct c as [r l] eqn:?; cbn [fst snd]; destruct r; run
  end.

Lemma tracksAdded_app (tr1 tr2 : list Event) :
  tracksAdded (tr1 ++ tr2) = (tracksAdded tr1 ++ tracksAdded tr2)%list.
Proof.
  induction tr1 as [|e tr1 IH]; simpl; [reflexivity|].
  destruct e; simpl; rewrite ?IH; reflexivity.
Qed.

Lemma buildersMade_app (tr1 tr2 : list Event) :
  buildersMade (tr1 ++ tr2) = (buildersMade tr1 ++ buildersMade tr2)%list.
Proof.
  induction tr1 as [|e tr1 IH]; simpl; [reflexivity|].
  destruct e; simpl; rewrite ?IH; reflexivity.
Qed.

(** ** Signaling dispatch *)

Lemma dispatch_unknown (msg : Message) :
  Type_ msg <> "offer" -> Type_ msg <> "ice" ->
  handleSignalingMessage msg = ret (Errorf "unknown message type: " (Type_ msg)).
Proof.
  intros Ho Hi. unfold handleSignalingMessage.
  destruct (String.eqb_spec (Type_ msg) "offer"); [contradiction|].
  destruct (String.eqb_spec (Type_ msg) "ice"); [contradiction|].
  reflexivity.
Qed.

Lemma dispatch_ice (msg : Message) :
  Type_ msg = "ice" -> handleSignalingMessage msg = handleICECandidate (ICE msg).
Proof.
  intros Hi. unfold handleSignalingMessage. rewrite Hi. reflexivity.
Qed.

Lemma dispatch_offer (msg : Message) :
  Type_ msg = "offer" -> handleSignalingMessage msg = handleOffer (SDP msg).
Proof.
  intros Ho. unfold handleSignalingMessage. rewrite Ho. reflexivity.
Qed.

(** C3. A message whose type is neither "offer" nor "ice" makes
    [handleSignalingMessage] return the error "unknown message type: " followed
    by the offending type, in an unchanged world (so nothing is written to the
    control channel), and the read loop logs it and goes on with the
    messages that follow. *)
Theorem unknown_type_reported_and_skipped
  (msg : Message) (rest : list Message) (readErr : string) (w : World) :
  Type_ msg <> "offer" -> Type_ msg <> "ice" ->
  handleSignalingMessage msg w = (Ok (Some ("unknown message type: " ++ Type_ msg)), w)
  /\ readLoop (msg :: rest) readErr w
     = readLoop rest readErr
         (logged ("Failed to handle signaling message: unknown message type: "
                  ++ Type_ msg) w).
Proof.
  intros Ho Hi. split.
  - rewrite dispatch_unknown by assumption. reflexivity.
  - cbn [readLoop]. rewrite dispatch_unknown by assumption. reflexivity.
Qed.

(** C4. For a message of type "ice", dispatch goes to [handleICECandidate];
    a nil candidate returns no error and leaves the world as it was (nothing
    registered, nothing sent); a candidate that is present is handed to
    [AddICECandidate], whose result is returned. *)
Theorem ice_candidate_nil_is_noop_present_is_added (msg : Message) (w : World) :
  Type_ msg = "ice" ->
  handleSignalingMessage msg w = handleICECandidate (ICE msg) w
  /\ handleICECandidate None w = (Ok None, w)
  /\ forall c pc, peerConnection (mgr w) = Some pc ->
       handleICECandidate (Some c) w
       = (Ok (fst (libAddICECandidate pc c (lib w))),
          {| mgr := mgr w; lib := snd (libAddICECandidate pc c (lib w));
             trace := trace w ++ [EvAddICECandidate c] |}).
Proof.
  intros Hi. split; [|split].
  - rewrite dispatch_ice by assumption. reflexivity.
  - reflexivity.
  - intros c pc Hpc. unfold handleICECandidate. plumb. rewrite Hpc. plumb.
    destruct (libAddICECandidate pc c (lib w)); reflexivity.
Qed.

(** C9. An "offer" message without its sdp field reaches [handleOffer], which
    dereferences the nil pointer: the outcome is a panic, not an error value,
    before any call into the peer connection, and the panic leaves the read
    loop. *)
Theorem offer_without_sdp_panics
  (msg : Message) (rest : list Message) (readErr : string) (w : World) :
  Type_ msg = "offer" -> SDP msg = None ->
  handleSignalingMessage msg w = handleOffer None w
  /\ handleOffer None w = (Panic nilDereference, w)
  /\ readLoop (msg :: rest) readErr w = (Panic nilDereference, w).
Proof.
  intros Ho Hs. split; [|split].
  - rewrite dispatch_offer, Hs by assumption. reflexivity.
  - reflexivity.
  - cbn [readLoop]. rewrite dispatch_offer, Hs by assumption. reflexivity.
Qed.

(** ** Construction and teardown *)

(** C10. Once the peer connection [pc] exists, each of the four later
    steps that can fail -- creating the video track, creating the audio
    track, adding the video track, adding the audio track -- makes
    [newWebRTCManager] close [pc] and return a nil manager with that step's
    error: the call of [Close] is the last call made, it is made on [pc]
    in the state the failed step left, and it is the only [Close]. *)
Theorem construction_failure_closes_peer_connection
  (ws : option WSConn) (w : World) (l1 l2 : Lib) (pc : PeerConnection) :
  libRegisterDefaultCodecs (lib w) = (None, l1) ->
  libNewPeerConnection stunConfig l1 = (inr pc, l2) ->
  (forall e l3,
      libNewTrackLocalStaticSample MimeTypeVP8 "video" "pion" l2 = (Some e, l3) ->
      newWebRTCManager ws w
      = (Ok (None, Some ("failed to create video track: " ++ e)),
         {| mgr := allocatedManager pc ws;
            lib := snd (libClose pc l3);
            trace := trace w
                     ++ [EvRegisterDefaultCodecs; EvNewPeerConnection stunConfig;
                         EvNewTrackLocalStaticSample MimeTypeVP8 "video" "pion";
                         EvClose] |}))
  /\ (forall l3 e l4,
      libNewTrackLocalStaticSample MimeTypeVP8 "video" "pion" l2 = (None, l3) ->
      libNewTrackLocalStaticSample MimeTypeOpus "audio" "pion" l3 = (Some e, l4) ->
      newWebRTCManager ws w
      = (Ok (None, Some ("failed to create audio track: " ++ e)),
         {| mgr := setVideoTrack (Some theVideoTrack) (allocatedManager pc ws);
            lib := snd (libClose pc l4);
            trace := trace w
                     ++ [EvRegisterDefaultCodecs; EvNewPeerConnection stunConfig;
                         EvNewTrackLocalStaticSample MimeTypeVP8 "video" "pion";
                         EvNewTrackLocalStaticSample MimeTypeOpus "audio" "pion";
                         EvClose] |}))
  /\ (forall l3 l4 e l5,
      libNewTrackLocalStaticSample MimeTypeVP8 "video" "pion" l2 = (None, l3) ->
      libNewTrackLocalStaticSample MimeTypeOpus "audio" "pion" l3 = (None, l4) ->
      libAddTrack pc theVideoTrack l4 = (Some e, l5) ->
      newWebRTCManager ws w
      = (Ok (None, Some ("failed to add video track: " ++ e)),
         {| mgr := setAudioTrack (Some theAudioTrack)
                     (setVideoTrack (Some theVideoTrack) (allocatedManager pc ws));
            lib := snd (libClose pc l5);
            trace := trace w
                     ++ [EvRegisterDefaultCodecs; EvNewPeerConnection stunConfig;
                         EvNewTrackLocalStaticSample MimeTypeVP8 "video" "pion";
                         EvNewTrackLocalStaticSample MimeTypeOpus "audio" "pion";
                         EvAddTrack theVideoTrack; EvClose] |}))
  /\ (forall l3 l4 l5 e l6,
      libNewTrackLocalStaticSample MimeTypeVP8 "video" "pion" l2 = (None, l3) ->
      libNewTrackLocalStaticSample MimeTypeOpus "audio" "pion" l3 = (None, l4) ->
      libAddTrack pc theVideoTrack l4 = (None, l5) ->
      libAddTrack pc theAudioTrack l5 = (Some e, l6) ->
      newWebRTCManager ws w
      = (Ok (None, Some ("failed to add audio track: " ++ e)),
         {| mgr := setAudioTrack (Some theAudioTrack)
                     (setVideoTrack (Some theVideoTrack) (allocatedManager pc ws));
            lib := snd (libClose pc l6);
            trace := trace w
                     ++ [EvRegisterDefaultCodecs; EvNewPeerConnection stunConfig;
                         EvNewTrackLocalStaticSample MimeTypeVP8 "video" "pion";
                         EvNewTrackLocalStaticSample MimeTypeOpus "audio" "pion";
                         EvAddTrack theVideoTrack; EvAddTrack theAudioTrack;
                         EvClose] |})).
Proof.
  intros Hreg Hnew.
  repeat split; intros;
    unfold newWebRTCManager, NewTrackLocalStaticSample, pcClose;
    run; rewrite Hreg; run; rewrite Hnew; run;
    repeat match goal with
           | H : _ = (_, _) |- _ =>
               first [ rewrite H | fold theVideoTrack; rewrite H
                     | fold theVideoTrack; fold theAudioTrack; rewrite H ];
               clear H; run
           end;
    rewrite <- ?app_assoc; reflexivity.
Qed.

Lemma writeSample_run (track : WebRTCManager -> option TrackLocalStaticSample)
  (what : string) (s : Sample) (w : World) (t : TrackLocalStaticSample) :
  track (mgr w) = Some t ->
  writeSample track what s w = (Ok tt, writeAll t what [s] w).
Proof.
  intros Ht. unfold writeSample. run. rewrite Ht. run.
  cbn [writeAll]. destruct (libWriteSample t s (lib w)) as [[e|] l]; reflexivity.
Qed.

Lemma writeAll_mgr (t : TrackLocalStaticSample) (what : string)
  (samples : list Sample) (w : World) :
  mgr (writeAll t what samples w) = mgr w.
Proof.
  revert w. induction samples as [|s rest IH]; intros w; cbn [writeAll]; [reflexivity|].
  destruct (libWriteSample t s (lib w)) as [e l]. rewrite IH. reflexivity.
Qed.

Lemma drain_run (track : WebRTCManager -> option TrackLocalStaticSample)
  (what : string) (t : TrackLocalStaticSample) (sb : SampleBuilder) (w : World) :
  track (mgr w) = Some t ->
  drain track what sb w
  = (Ok (snd (popAll sb)), writeAll t what (fst (popAll sb)) w).
Proof.
  remember (sbPending sb) as n eqn:Hn. revert sb w Hn.
  induction n as [n IH] using lt_wf_ind. intros sb w Hn Ht.
  simp drain popAll.
  destruct (inspect (sbPop sb)) as [[[s|] sb'] Hpop]; simp drain popAll; [|reflexivity].
  rewrite (writeSample_run track what s w t Ht). simp drain. cbn [fst snd].
  assert (Hlt : sbPending sb' < n) by (subst n; eapply sbPop_consumes; eassumption).
  specialize (IH _ Hlt sb' (writeAll t what [s] w) eq_refl).
  rewrite writeAll_mgr in IH. specialize (IH Ht).
  simp drain popAll in IH. rewrite IH.
  cbn [writeAll]. destruct (libWriteSample t s (lib w)) as [e l]. reflexivity.
Qed.

(** A second [close] finds the channel closed and panics at once. *)
Lemma close_again_panics (w : World) :
  stopChan (mgr w) = Some ChanClosed ->
  close w = (Panic "close of closed channel", w).
Proof.
  intros Hc. unfold close. run. rewrite Hc. reflexivity.
Qed.

(** What [close] does when the shutdown channel is open. *)
Lemma close_open (w : World) (pc : PeerConnection) :
  stopChan (mgr w) = Some ChanOpen ->
  peerConnection (mgr w) = Some pc ->
  close w = (Ok tt, afterClose pc w).
Proof.
  intros Hs Hpc. unfold close, pcClose, afterClose. run. rewrite Hs. run.
  destruct (udpListener (mgr w)) as [conn|]; run; rewrite Hpc; run;
    libcase; unfold logPrintf, emit, ret; cbn [mgr lib trace app];
    rewrite <- ?app_assoc; reflexivity.
Qed.

(** C2 (amended). The first [close] of a session whose shutdown channel is
    open and whose peer connection exists returns normally, whether the
    ingest socket was opened or [udpListener] is still nil, and leaves
    exactly [afterClose]: the channel closed; the socket closed if and only
    if [udpListener] is not nil, an error of that call being dropped; the
    peer connection closed, with the log line "Error closing peer
    connection: ..." if and only if that call failed, and nothing else
    logged or reported.  A second [close] of the same session panics with
    "close of closed channel" and does nothing else. *)
Theorem close_once_returns_second_close_panics (w : World) (pc : PeerConnection) :
  stopChan (mgr w) = Some ChanOpen ->
  peerConnection (mgr w) = Some pc ->
  close w = (Ok tt, afterClose pc w)
  /\ close (afterClose pc w) = (Panic "close of closed channel", afterClose pc w)
  /\ bind close (fun _ => close) w
     = (Panic "close of closed channel", afterClose pc w).
Proof.
  intros Hs Hpc.
  assert (Hagain : close (afterClose pc w)
                   = (Panic "close of closed channel", afterClose pc w))
    by (apply close_again_panics; reflexivity).
  split; [apply close_open; assumption|]. split; [exact Hagain|].
  unfold bind. rewrite (close_open w pc Hs Hpc). exact Hagain.
Qed.

(** ** The ingest loop *)

Lemma afterRead_run {B} (k : unit -> M B) (w : World) :
  bind (emit (EvSetReadDeadline 100)) (fun _ => bind (emit EvReadFrom) k) w
  = k tt (afterRead w).
Proof.
  run. unfold afterRead. rewrite <- app_assoc. reflexivity.
Qed.

(** While the shutdown channel is not closed an iteration reads. *)
Lemma ingestIteration_reads (b : Buffers) (r : ReadResult) (w : World) :
  stopChan (mgr w) <> Some ChanClosed ->
  ingestIteration b r w
  = match r with
    | ReadTimeout _ => (Ok (Continue b), afterRead w)
    | ReadError e => (Ok (Continue b), logged ("Error during read: " ++ e) (afterRead w))
    | Datagram data =>
        match libUnmarshal (firstn 1500 data) with
        | inl e =>
            (Ok (Continue b),
             logged ("Error unmarshaling RTP packet: " ++ e) (afterRead w))
        | inr packet =>
            if (PayloadType packet =? 96)%Z then
              bind (drain videoTrack "video" (sbPush (videoBuffer b) packet))
                (fun vb => ret (Continue {| videoBuffer := vb;
                                            audioBuffer := audioBuffer b |}))
                (afterRead w)
            else if (PayloadType packet =? 111)%Z then
              bind (drain audioTrack "audio" (sbPush (audioBuffer b) packet))
                (fun ab => ret (Continue {| videoBuffer := videoBuffer b;
                                            audioBuffer := ab |}))
                (afterRead w)
            else (Ok (Continue b), afterRead w)
        end
    end.
Proof.
  intros Hopen. unfold ingestIteration. rewrite bind_getMgr.
  cbv beta.
  destruct (stopChan (mgr w)) as [[|]|]; try congruence;
    rewrite afterRead_run;
    (destruct r as [data|e|e]; [|reflexivity|reflexivity]);
    (destruct (libUnmarshal (firstn 1500 data)) as [e|packet]; [reflexivity|]);
    (destruct (PayloadType packet =? 96)%Z; [reflexivity|]);
    (destruct (PayloadType packet =? 111)%Z; reflexivity).
Qed.

(** C8. While the session is not shut down, a read timeout ends the
    iteration without any log line, another read error and a datagram that
    does not parse end it with one log line; in all three cases the
    iteration continues the loop with its buffers untouched, and the loop
    goes on to its next iteration (which polls the shutdown channel again). *)
Theorem read_failures_do_not_stop_ingest
  (b : Buffers) (rest : list ReadResult) (w : World) :
  stopChan (mgr w) <> Some ChanClosed ->
  (forall e,
      ingestIteration b (ReadTimeout e) w = (Ok (Continue b), afterRead w)
      /\ filter isLog (trace (afterRead w)) = filter isLog (trace w)
      /\ ingestLoop b (ReadTimeout e :: rest) w = ingestLoop b rest (afterRead w))
  /\ (forall e,
      ingestIteration b (ReadError e) w
      = (Ok (Continue b), logged ("Error during read: " ++ e) (afterRead w))
      /\ ingestLoop b (ReadError e :: rest) w
         = ingestLoop b rest (logged ("Error during read: " ++ e) (afterRead w)))
  /\ (forall data e,
      libUnmarshal (firstn 1500 data) = inl e ->
      ingestIteration b (Datagram data) w
      = (Ok (Continue b), logged ("Error unmarshaling RTP packet: " ++ e) (afterRead w))
      /\ ingestLoop b (Datagram data :: rest) w
         = ingestLoop b rest
             (logged ("Error unmarshaling RTP packet: " ++ e) (afterRead w))).
Proof.
  intros Hopen. repeat split; intros.
  - apply ingestIteration_reads; assumption.
  - unfold afterRead. cbn [trace]. rewrite filter_app. cbn. apply app_nil_r.
  - cbn [ingestLoop]. unfold bind at 1. rewrite ingestIteration_reads by assumption.
    reflexivity.
  - apply ingestIteration_reads; assumption.
  - cbn [ingestLoop]. unfold bind at 1. rewrite ingestIteration_reads by assumption.
    reflexivity.
  - rewrite ingestIteration_reads by assumption.
    match goal with H : libUnmarshal _ = _ |- _ => rewrite H end. reflexivity.
  - cbn [ingestLoop]. unfold bind at 1. rewrite ingestIteration_reads by assumption.
    match goal with H : libUnmarshal _ = _ |- _ => rewrite H end. reflexivity.
Qed.

(** C5. A datagram that parses is dispatched on its payload type: 96 is
    pushed into the video builder, whose samples are drained to the video
    track; 111 likewise into the audio builder and track; any other value
    ends the iteration with both builders as they were and nothing written
    or logged. *)
Theorem packets_dispatched_by_payload_type
  (b : Buffers) (data : list byte) (packet : Packet) (w : World)
  (video audio : TrackLocalStaticSample) :
  stopChan (mgr w) <> Some ChanClosed ->
  videoTrack (mgr w) = Some video ->
  audioTrack (mgr w) = Some audio ->
  libUnmarshal (firstn 1500 data) = inr packet ->
  (PayloadType packet = 96%Z ->
     ingestIteration b (Datagram data) w
     = (Ok (Continue {| videoBuffer := snd (popAll (sbPush (videoBuffer b) packet));
                        audioBuffer := audioBuffer b |}),
        writeAll video "video" (fst (popAll (sbPush (videoBuffer b) packet)))
          (afterRead w)))
  /\ (PayloadType packet = 111%Z ->
     ingestIteration b (Datagram data) w
     = (Ok (Continue {| videoBuffer := videoBuffer b;
                        audioBuffer := snd (popAll (sbPush (audioBuffer b) packet)) |}),
        writeAll audio "audio" (fst (popAll (sbPush (audioBuffer b) packet)))
          (afterRead w)))
  /\ (PayloadType packet <> 96%Z -> PayloadType packet <> 111%Z ->
     ingestIteration b (Datagram data) w = (Ok (Continue b), afterRead w)).
Proof.
  intros Hopen Hv Ha Hparse.
  rewrite ingestIteration_reads by assumption. rewrite Hparse.
  repeat split.
  - intros Hpt. rewrite Hpt. cbn [Z.eqb Pos.eqb]. unfold bind.
    rewrite (drain_run videoTrack "video" video) by exact Hv. reflexivity.
  - intros Hpt. rewrite Hpt. cbn [Z.eqb Pos.eqb]. unfold bind.
    rewrite (drain_run audioTrack "audio" audio) by exact Ha. reflexivity.
  - intros Hv' Ha'.
    destruct (Z.eqb_spec (PayloadType packet) 96); [contradiction|].
    destruct (Z.eqb_spec (PayloadType packet) 111); [contradiction|].
    reflexivity.
Qed.

(** ** Which sample builders a session makes *)

Lemma ingest_events_build_nothing (delta : list Event) :
  forallb isIngestEvent delta = true ->
  buildersMade delta = [] /\ tracksAdded delta = [] /\ sent delta = []
  /\ filter isNegotiation delta = [].
Proof.
  induction delta as [|e delta IH]; [repeat split|].
  cbn [forallb]. intros H. apply andb_true_iff in H as [He Hd].
  destruct (IH Hd) as (Hb & Ht & Hs & Hn).
  destruct e; cbn in He; try discriminate; cbn; repeat split; assumption.
Qed.

Lemma extendsQuietly_refl (w : World) : extendsQuietly w w.
Proof. split; [reflexivity|]. exists []. rewrite app_nil_r. split; reflexivity. Qed.

Lemma extendsQuietly_trans (w1 w2 w3 : World) :
  extendsQuietly w1 w2 -> extendsQuietly w2 w3 -> extendsQuietly w1 w3.
Proof.
  intros [Hm1 [d1 [Ht1 Hb1]]] [Hm2 [d2 [Ht2 Hb2]]]. split; [congruence|].
  exists (d1 ++ d2)%list. rewrite Ht2, Ht1, <- app_assoc, forallb_app, Hb1, Hb2.
  split; reflexivity.
Qed.

Lemma extendsQuietly_afterRead (w : World) : extendsQuietly w (afterRead w).
Proof. split; [reflexivity|]. eexists. split; reflexivity. Qed.

Lemma extendsQuietly_logged (line : string) (w : World) : extendsQuietly w (logged line w).
Proof. split; [reflexivity|]. eexists. split; reflexivity. Qed.

Lemma extendsQuietly_writeAll (t : TrackLocalStaticSample) (what : string)
  (samples : list Sample) (w : World) :
  extendsQuietly w (writeAll t what samples w).
Proof.
  revert w. induction samples as [|s rest IH]; intros w; cbn [writeAll].
  - apply extendsQuietly_refl.
  - destruct (libWriteSample t s (lib w)) as [e l].
    eapply extendsQuietly_trans; [|apply IH].
    split; [reflexivity|]. cbn [trace].
    destruct e as [e|]; [rewrite <- app_assoc|]; eexists; split; reflexivity.
Qed.

Lemma extendsQuietly_drain (track : WebRTCManager -> option TrackLocalStaticSample)
  (what : string) (sb : SampleBuilder) (w : World) :
  extendsQuietly w (snd (drain track what sb w)).
Proof.
  destruct (track (mgr w)) as [t|] eqn:Ht.
  - rewrite (drain_run track what t) by exact Ht. apply extendsQuietly_writeAll.
  - simp drain.
    destruct (inspect (sbPop sb)) as [[[s|] sb'] Hpop]; simp drain;
      [|apply extendsQuietly_refl].
    unfold writeSample. run. rewrite Ht. cbn [deref]. unfold panic. simp drain.
    apply extendsQuietly_refl.
Qed.

Lemma extendsQuietly_ingestIteration (b : Buffers) (r : ReadResult) (w : World) :
  extendsQuietly w (snd (ingestIteration b r w)).
Proof.
  destruct (stopChan (mgr w)) as [[|]|] eqn:Hs.
  2:{ unfold ingestIteration. rewrite bind_getMgr. cbv beta. rewrite Hs.
      apply extendsQuietly_refl. }
  all: rewrite ingestIteration_reads by congruence;
    (destruct r as [data|e|e];
     [| apply extendsQuietly_afterRead
      | eapply extendsQuietly_trans;
        [apply extendsQuietly_afterRead | apply extendsQuietly_logged]]);
    (destruct (libUnmarshal (firstn 1500 data)) as [e|packet];
     [eapply extendsQuietly_trans;
      [apply extendsQuietly_afterRead | apply extendsQuietly_logged]|]);
    (destruct (PayloadType packet =? 96)%Z;
     [|destruct (PayloadType packet =? 111)%Z; [|apply extendsQuietly_afterRead]]);
    unfold bind;
    match goal with
    | |- context [drain ?t ?s ?sb ?w0] =>
        pose proof (extendsQuietly_drain t s sb w0) as Hd;
        destruct (drain t s sb w0) as [[vb| |] w1]; cbn [snd] in *;
        (eapply extendsQuietly_trans; [apply extendsQuietly_afterRead | exact Hd])
    end.
Qed.

Lemma extendsQuietly_ingestLoop (reads : list ReadResult) (b : Buffers) (w : World) :
  extendsQuietly w (snd (ingestLoop b reads w)).
Proof.
  revert b w. induction reads as [|r rest IH]; intros b w; cbn [ingestLoop].
  - apply extendsQuietly_refl.
  - unfold bind. pose proof (extendsQuietly_ingestIteration b r w) as Hi.
    destruct (ingestIteration b r w) as [[[b'|]| |] w1]; cbn [snd] in *;
      try exact Hi.
    eapply extendsQuietly_trans; [exact Hi | apply IH].
Qed.

Lemma recvStopChan_world (w : World) : snd (recvStopChan w) = w.
Proof.
  unfold recvStopChan. rewrite bind_getMgr. cbv beta.
  destruct (stopChan (mgr w)) as [[|]|]; reflexivity.
Qed.

(** C6 (amended). [handleMedia] constructs sample builders only once
    [ListenUDP] has succeeded.  It then constructs exactly two, whatever is
    read afterwards: the one the loop uses as video buffer is
    [New(10, VP8Packet, 90000)] and the one it uses as audio buffer is
    [New(10, OpusPacket, 48000)].  When [ListenUDP] fails the failure is
    logged and no builder is constructed. *)
Theorem two_builders_once_listening (reads : list ReadResult) (w : World) :
  match libListenUDP "127.0.0.1" 5004 (lib w) with
  | (inr conn, l) =>
      handleMedia reads w
      = withDefer
          (bind (emit (EvGo "ingest")) (fun _ =>
           bind (ingestLoop {| videoBuffer := sbNew 10 VP8Packet 90000;
                               audioBuffer := sbNew 10 OpusPacket 48000 |} reads)
             (fun _ => recvStopChan)))
          (bind (call EvUDPClose (libUDPClose conn)) (fun _ => ret tt))
          {| mgr := setUdpListener (Some conn) (mgr w); lib := l;
             trace := trace w ++ [EvListenUDP "127.0.0.1" 5004;
                                  EvSampleBuilderNew 10 VP8Packet 90000;
                                  EvSampleBuilderNew 10 OpusPacket 48000] |}
      /\ exists delta,
           trace (snd (handleMedia reads w)) = (trace w ++ delta)%list
           /\ buildersMade delta = [(10%Z, VP8Packet, 90000%Z); (10%Z, OpusPacket, 48000%Z)]
  | (inl e, l) =>
      handleMedia reads w
      = (Ok tt,
         logged ("Failed to listen on UDP port: " ++ e)
           {| mgr := setUdpListener None (mgr w); lib := l;
              trace := trace w ++ [EvListenUDP "127.0.0.1" 5004] |})
      /\ exists delta,
           trace (snd (handleMedia reads w)) = (trace w ++ delta)%list
           /\ buildersMade delta = []
  end.
Proof.
  destruct (libListenUDP "127.0.0.1" 5004 (lib w)) as [[e|conn] l] eqn:Hl.
  - assert (Heq : handleMedia reads w
                  = (Ok tt,
                     logged ("Failed to listen on UDP port: " ++ e)
                       {| mgr := setUdpListener None (mgr w); lib := l;
                          trace := trace w ++ [EvListenUDP "127.0.0.1" 5004] |})).
    { unfold handleMedia. run. rewrite Hl. reflexivity. }
    split; [exact Heq|]. rewrite Heq. cbn [snd logged trace].
    rewrite <- app_assoc. eexists. split; reflexivity.
  - match goal with |- ?lhs = ?rhs /\ _ => assert (Heq : lhs = rhs) end.
    { unfold handleMedia. run. rewrite Hl. tidy. unfold withDefer, samplebuilderNew.
      run. rewrite <- !app_assoc. reflexivity. }
    split; [exact Heq|]. rewrite Heq. unfold withDefer. rewrite bind_emit.
    match goal with
    | |- context [bind (ingestLoop ?b reads) ?k ?w0] =>
        pose proof (extendsQuietly_ingestLoop reads b w0) as Hq;
        unfold bind at 1;
        destruct (ingestLoop b reads w0) as [[st| |] w1]
    end; cbn [snd] in Hq; destruct Hq as [_ [d [Hd Hb]]]; cbn [trace] in Hd;
      apply ingest_events_build_nothing in Hb; destruct Hb as [Hb _].
    + pose proof (recvStopChan_world w1) as Hr.
      destruct (recvStopChan w1) as [[[]| |] w2]; cbn [snd] in Hr; subst w2;
        run; cbn [snd trace];
        rewrite ?Hd, <- ?app_assoc; eexists; (split; [reflexivity|]);
        cbn [app buildersMade]; rewrite ?buildersMade_app, Hb; reflexivity.
    + run. cbn [snd trace].
      rewrite ?Hd, <- ?app_assoc; eexists; (split; [reflexivity|]);
        cbn [app buildersMade]; rewrite buildersMade_app, Hb; reflexivity.
    + cbn [snd trace].
      rewrite ?Hd, <- ?app_assoc; eexists; (split; [reflexivity|]);
        cbn [app buildersMade]; rewrite Hb; reflexivity.
Qed.

(** ** Offer and answer *)

Lemma bind_Lock {B} (k : unit -> M B) (w : World) :
  mu (mgr w) = false ->
  bind Lock k w
  = k tt {| mgr := setMu true (mgr w); lib := lib w; trace := trace w ++ [EvLock] |}.
Proof. intros Hmu. unfold Lock. run. rewrite Hmu. run. reflexivity. Qed.

Lemma Unlock_run (w : World) :
  mu (mgr w) = true ->
  Unlock w
  = (Ok tt, {| mgr := setMu false (mgr w); lib := lib w; trace := trace w ++ [EvUnlock] |}).
Proof. intros Hmu. unfold Unlock. run. rewrite Hmu. run. reflexivity. Qed.

Lemma setMu_round_trip (m : WebRTCManager) :
  mu m = false -> setMu false (setMu true m) = m.
Proof. destruct m; cbn; intros; subst; reflexivity. Qed.

(** Writing one message under the mutex, as [handleOffer] and the candidate
    callback do. *)
Lemma locked_write {A} (conn : WSConn) (msg : Message) (k : GoError -> M A) (w : World) :
  mu (mgr w) = false ->
  bind Lock (fun _ =>
    withDefer (deref (Some conn) (fun c => bind (call (EvWriteJSON msg) (libWriteJSON c msg)) k))
              Unlock) w
  = withDefer (k (fst (libWriteJSON conn msg (lib w)))) Unlock
      {| mgr := setMu true (mgr w); lib := snd (libWriteJSON conn msg (lib w));
         trace := trace w ++ [EvLock; EvWriteJSON msg] |}.
Proof.
  intros Hmu. rewrite bind_Lock by exact Hmu. cbv beta. unfold withDefer. run.
  rewrite <- app_assoc. reflexivity.
Qed.

Ltac frame_leaf :=
  unfold controlFrame;
  cbn [fst snd mgr lib trace setMu mu peerConnection videoTrack audioTrack wsConn
       udpListener stopChan];
  try exact I;
  (split;
   [ reflexivity
   | eexists; split; [rewrite <- ?app_assoc; reflexivity | reflexivity] ]).

Lemma controlFrame_ret {A} (a : A) (w : World) : controlFrame w (ret a w).
Proof.
  split; [reflexivity|]. exists []. cbn. rewrite app_nil_r. split; reflexivity.
Qed.

Lemma handleOffer_frame (offer : option SessionDescription) (w : World) :
  mu (mgr w) = false -> controlFrame w (handleOffer offer w).
Proof.
  destruct w as [[pc v a ws held ul sc] l t]. cbn [mgr mu]. intros ->.
  unfold handleOffer. run.
  destruct offer as [sd|]; [|exact I]. destruct pc as [pc|]; [|exact I]. run.
  libcase; [frame_leaf|]. libcase; [frame_leaf|]. libcase; [frame_leaf|].
  destruct (libGatheringComplete pc l2) as [l3|]; [|exact I]. run.
  destruct ws as [conn|].
  - rewrite locked_write by reflexivity. unfold withDefer.
    libcase; unfold ret; cbv beta iota; rewrite Unlock_run by reflexivity; frame_leaf.
  - rewrite bind_Lock by reflexivity. cbv beta. unfold withDefer. tidy.
    unfold panic. rewrite Unlock_run by reflexivity. exact I.
Qed.

Lemma handleSignalingMessage_frame (msg : Message) (w : World) :
  mu (mgr w) = false -> controlFrame w (handleSignalingMessage msg w).
Proof.
  intros Hmu. unfold handleSignalingMessage.
  destruct (Type_ msg =? "offer"); [apply handleOffer_frame; exact Hmu|].
  destruct (Type_ msg =? "ice"); [|apply controlFrame_ret].
  unfold handleICECandidate.
  destruct (ICE msg) as [c|]; [|apply controlFrame_ret].
  run. destruct (peerConnection (mgr w)); [|exact I]. run. frame_leaf.
Qed.

Lemma onICECandidate_frame (ws0 : option WSConn) (c : option ICECandidate) (w : World) :
  mu (mgr w) = false -> controlFrame w (onICECandidate ws0 c w).
Proof.
  destruct w as [[pc v a ws held ul sc] l t]. cbn [mgr mu]. intros ->.
  unfold onICECandidate.
  destruct c as [c|]; [|apply controlFrame_ret].
  destruct ws0 as [conn|].
  - rewrite locked_write by reflexivity. unfold withDefer.
    libcase; unfold logPrintf, emit, ret; cbv beta iota;
      rewrite Unlock_run by reflexivity; frame_leaf.
  - rewrite bind_Lock by reflexivity. cbv beta. unfold withDefer. tidy.
    unfold panic. rewrite Unlock_run by reflexivity. exact I.
Qed.

(** ** The session invariant *)

Lemma newWebRTCManager_establishes (ws : option WSConn) (l0 : Lib) (w : World) :
  newWebRTCManager ws (initWorld l0) = (Ok (Some ManagerRef, None), w) ->
  SessionInv ws w.
Proof.
  unfold newWebRTCManager, NewTrackLocalStaticSample, pcClose, initWorld. run.
  repeat libcase; intros H; inversion H; subst; clear H.
  unfold SessionInv. cbn [mgr trace setVideoTrack setAudioTrack peerConnection wsConn mu
                          videoTrack audioTrack].
  split; [eexists; reflexivity|]. do 4 (split; [reflexivity|]).
  eexists. exists []. rewrite app_nil_r. repeat split; reflexivity.
Qed.

Lemma SessionInv_step (ws : option WSConn) (w w' : World) (delta : list Event) :
  SessionInv ws w ->
  sameHandles (mgr w) (mgr w') ->
  trace w' = (trace w ++ delta)%list ->
  tracksAdded delta = [] ->
  SessionInv ws w'.
Proof.
  intros (Hpc & Hws & Hmu & Hv & Ha & pre & post & Ht & Hpre & Hneg & Hpost)
         (Epc & Ews & Emu & Ev & Ea) Htr Hd.
  unfold SessionInv. rewrite Epc, Ews, Emu, Ev, Ea.
  repeat (split; [assumption|]).
  exists pre, (post ++ delta)%list. rewrite Htr, Ht, app_assoc, tracksAdded_app, Hpost, Hd.
  repeat split; assumption.
Qed.

Lemma sameHandles_refl (m : WebRTCManager) : sameHandles m m.
Proof. repeat split. Qed.

Lemma controlFrame_preserves {A} (ws : option WSConn) (w w' : World) (c : M A) (a : A) :
  SessionInv ws w -> controlFrame w (c w) -> c w = (Ok a, w') -> SessionInv ws w'.
Proof.
  intros Hinv Hf Hc. unfold controlFrame in Hf. rewrite Hc in Hf. cbn [fst snd] in Hf.
  destruct Hf as [Hm [delta [Ht Hd]]].
  apply (SessionInv_step ws w w' delta Hinv); try assumption.
  rewrite Hm. apply sameHandles_refl.
Qed.

Lemma handleMedia_start_frame (w : World) :
  sameHandles (mgr w) (mgr (snd (handleMedia [] w)))
  /\ exists delta,
       trace (snd (handleMedia [] w)) = (trace w ++ delta)%list /\ tracksAdded delta = [].
Proof.
  unfold handleMedia. run.
  destruct (libListenUDP "127.0.0.1" 5004 (lib w)) as [[e|conn] l]; tidy.
  - unfold logPrintf, emit. tidy. split; [repeat split|].
    rewrite <- app_assoc. eexists. split; reflexivity.
  - unfold withDefer, samplebuilderNew. run. cbn [ingestLoop]. run.
    unfold recvStopChan. run. cbn [setUdpListener stopChan].
    destruct (stopChan (mgr w)) as [[|]|]; unfold block, ret; cbv beta iota; run;
      cbn [snd mgr trace]; (split; [repeat split|]);
      rewrite <- !app_assoc; eexists; split; reflexivity.
Qed.

(** Every world a session's tasks can reach satisfies the invariant. *)
Lemma Reachable_SessionInv (ws : option WSConn) (l0 : Lib) (w : World) :
  Reachable ws l0 w -> SessionInv ws w.
Proof.
  induction 1 as [w Hnew | w msg err w' _ IH Hstep | w c w' _ IH Hstep
                  | w o w' _ IH Hstep | w b r st w' _ IH Hstep].
  - eapply newWebRTCManager_establishes; eassumption.
  - eapply controlFrame_preserves; [exact IH| |exact Hstep].
    apply handleSignalingMessage_frame. apply IH.
  - eapply controlFrame_preserves; [exact IH| |exact Hstep].
    apply onICECandidate_frame. apply IH.
  - destruct (handleMedia_start_frame w) as [Hm [delta [Ht Hd]]].
    rewrite Hstep in Hm, Ht. cbn [snd] in Hm, Ht.
    eapply SessionInv_step; eassumption.
  - pose proof (extendsQuietly_ingestIteration b r w) as [Hm [delta [Ht Hd]]].
    rewrite Hstep in Hm, Ht. cbn [snd] in Hm, Ht.
    apply ingest_events_build_nothing in Hd. destruct Hd as (_ & Hd & _).
    eapply SessionInv_step; try eassumption. rewrite Hm. apply sameHandles_refl.
Qed.

Lemma handleOffer_run (w : World) (pc : PeerConnection) (conn : WSConn)
  (sd answer : SessionDescription) (l1 l2 l3 : Lib) :
  peerConnection (mgr w) = Some pc ->
  wsConn (mgr w) = Some conn ->
  mu (mgr w) = false ->
  libSetRemoteDescription pc sd (lib w) = (None, l1) ->
  libCreateAnswer pc l1 = (inr answer, l2) ->
  libSetLocalDescription pc answer l2 = (None, l3) ->
  handleOffer (Some sd) w
  = match libGatheringComplete pc l3 with
    | Some l4 =>
        (Ok match fst (libWriteJSON conn (answerMessage pc l4) l4) with
            | Some e => Errorf "failed to send answer: " e
            | None => None
            end,
         {| mgr := mgr w;
            lib := snd (libWriteJSON conn (answerMessage pc l4) l4);
            trace := trace w ++ [EvSetRemoteDescription sd; EvCreateAnswer;
                                 EvSetLocalDescription answer; EvGatheringComplete;
                                 EvLock; EvWriteJSON (answerMessage pc l4); EvUnlock] |})
    | None =>
        (Blocked,
         {| mgr := mgr w; lib := l3;
            trace := trace w ++ [EvSetRemoteDescription sd; EvCreateAnswer;
                                 EvSetLocalDescription answer] |})
    end.
Proof.
  intros Hpc Hws Hmu Hr Hc Hl. unfold handleOffer. run.
  rewrite Hpc. run. rewrite Hr. run. rewrite Hc. run. rewrite Hl. run.
  destruct (libGatheringComplete pc l3) as [l4|];
    [|rewrite <- !app_assoc; reflexivity].
  run. rewrite Hws. rewrite locked_write by exact Hmu. unfold withDefer.
  fold (answerMessage pc l4). tidy.
  destruct (libWriteJSON conn (answerMessage pc l4) l4) as [[e|] l5]; cbn [fst snd];
    unfold ret; cbv beta iota; rewrite Unlock_run by reflexivity;
    cbn [mgr lib trace]; rewrite setMu_round_trip by exact Hmu;
    rewrite <- !app_assoc; reflexivity.
Qed.

(** C1. In any world a session can reach on control channel [conn], an offer
    the peer connection accepts (remote description set, answer created,
    local description set) makes [handleOffer] write exactly one message to
    the control channel, of type "answer", and only after the receive on the
    gathering promise has returned: the write follows [EvGatheringComplete]
    in the trace, the message carries the local description read after
    gathering, and as long as gathering does not complete [handleOffer] is
    blocked and has written nothing.  The peer connection that computes the
    description had exactly two tracks added, the video one and the audio
    one, both before any negotiation call, and none since. *)
Theorem valid_offer_answered_once_after_gathering
  (conn : WSConn) (l0 : Lib) (w : World) (pc : PeerConnection)
  (sd answer : SessionDescription) (l1 l2 l3 : Lib) :
  Reachable (Some conn) l0 w ->
  peerConnection (mgr w) = Some pc ->
  libSetRemoteDescription pc sd (lib w) = (None, l1) ->
  libCreateAnswer pc l1 = (inr answer, l2) ->
  libSetLocalDescription pc answer l2 = (None, l3) ->
  TracksAddedBeforeNegotiation (trace w)
  /\ Kind theVideoTrack = RTPCodecTypeVideo
  /\ Kind theAudioTrack = RTPCodecTypeAudio
  /\ AnswersOnceAfterGathering conn pc sd answer l3 w.
Proof.
  intros Hreach Hpc Hr Hc Hl.
  pose proof (Reachable_SessionInv _ _ _ Hreach) as (_ & Hws & Hmu & _ & _ & Hsplit).
  split; [exact Hsplit|]. split; [reflexivity|]. split; [reflexivity|].
  unfold AnswersOnceAfterGathering.
  rewrite (handleOffer_run w pc conn sd answer l1 l2 l3) by assumption.
  destruct (libGatheringComplete pc l3) as [l4|];
    do 3 eexists; (split; [reflexivity|]); cbn [trace];
    (split; [reflexivity|]); (split; [reflexivity|]); repeat split.
Qed.

(** * Further properties of the session code *)

(** ** [newWebRTCManager] as a whole *)

(** X1. [newWebRTCManager] hands out a manager exactly when it reports no
    error: it never returns both or neither. *)
Theorem newWebRTCManager_manager_iff_no_error (ws : option WSConn) (w : World) :
  exists p err w',
    newWebRTCManager ws w = (Ok (p, err), w')
    /\ (p = None <-> err <> None).
Proof.
  unfold newWebRTCManager, NewTrackLocalStaticSample, pcClose. run.
  repeat libcase; do 3 eexists; (split; [reflexivity|]);
    split; intros H; try discriminate; try congruence.
Qed.

(** X2. When the codecs cannot be registered or the peer connection cannot
    be created, [newWebRTCManager] returns the wrapped error at once: the
    manager object is not touched, no track is created and there is nothing
    to close. *)
Theorem newWebRTCManager_early_failure (ws : option WSConn) (w : World) :
  (forall e l1,
      libRegisterDefaultCodecs (lib w) = (Some e, l1) ->
      newWebRTCManager ws w
      = (Ok (None, Some ("failed to register default codecs: " ++ e)),
         {| mgr := mgr w; lib := l1; trace := trace w ++ [EvRegisterDefaultCodecs] |}))
  /\ (forall l1 e l2,
      libRegisterDefaultCodecs (lib w) = (None, l1) ->
      libNewPeerConnection stunConfig l1 = (inl e, l2) ->
      newWebRTCManager ws w
      = (Ok (None, Some ("failed to create peer connection: " ++ e)),
         {| mgr := mgr w; lib := l2;
            trace := trace w ++ [EvRegisterDefaultCodecs;
                                 EvNewPeerConnection stunConfig] |})).
Proof.
  split.
  - intros e l1 Hreg. unfold newWebRTCManager. run. rewrite Hreg. reflexivity.
  - intros l1 e l2 Hreg Hnew. unfold newWebRTCManager. run. rewrite Hreg. run.
    rewrite Hnew. run. rewrite <- app_assoc. reflexivity.
Qed.

(** X3. When [newWebRTCManager] succeeds, from whatever state, the manager
    is a fresh one: the new peer connection, the VP8 track "video" and the
    Opus track "audio" of stream "pion", the given control channel, a free
    mutex, no ingest socket and an open shutdown channel.  It got there by
    creating both tracks, adding video then audio, and registering the two
    callbacks last; it closed nothing. *)
Theorem newWebRTCManager_success (ws : option WSConn) (w w' : World) :
  newWebRTCManager ws w = (Ok (Some ManagerRef, None), w') ->
  exists pc,
    mgr w' = freshManager pc ws
    /\ trace w'
       = (trace w ++ [EvRegisterDefaultCodecs; EvNewPeerConnection stunConfig;
                      EvNewTrackLocalStaticSample MimeTypeVP8 "video" "pion";
                      EvNewTrackLocalStaticSample MimeTypeOpus "audio" "pion";
                      EvAddTrack theVideoTrack; EvAddTrack theAudioTrack;
                      EvOnICECandidate; EvOnICEConnectionStateChange])%list.
Proof.
  unfold newWebRTCManager, NewTrackLocalStaticSample, pcClose. run.
  repeat libcase; intros H; inversion H; subst; clear H.
  eexists. split; [reflexivity|]. cbn [trace]. rewrite <- !app_assoc. reflexivity.
Qed.

(** ** Failed negotiations *)

(** X4. When a negotiation call fails, [handleOffer] stops there and returns
    the wrapped error: the later negotiation calls are not made, the mutex
    is not taken and nothing is written to the control channel. *)
Theorem handleOffer_failed_negotiation
  (w : World) (pc : PeerConnection) (sd : SessionDescription) :
  peerConnection (mgr w) = Some pc ->
  (forall e l1,
      libSetRemoteDescription pc sd (lib w) = (Some e, l1) ->
      handleOffer (Some sd) w
      = (Ok (Some ("failed to set remote description: " ++ e)),
         {| mgr := mgr w; lib := l1;
            trace := trace w ++ [EvSetRemoteDescription sd] |}))
  /\ (forall l1 e l2,
      libSetRemoteDescription pc sd (lib w) = (None, l1) ->
      libCreateAnswer pc l1 = (inl e, l2) ->
      handleOffer (Some sd) w
      = (Ok (Some ("failed to create answer: " ++ e)),
         {| mgr := mgr w; lib := l2;
            trace := trace w ++ [EvSetRemoteDescription sd; EvCreateAnswer] |}))
  /\ (forall l1 answer l2 e l3,
      libSetRemoteDescription pc sd (lib w) = (None, l1) ->
      libCreateAnswer pc l1 = (inr answer, l2) ->
      libSetLocalDescription pc answer l2 = (Some e, l3) ->
      handleOffer (Some sd) w
      = (Ok (Some ("failed to set local description: " ++ e)),
         {| mgr := mgr w; lib := l3;
            trace := trace w ++ [EvSetRemoteDescription sd; EvCreateAnswer;
                                 EvSetLocalDescription answer] |})).
Proof.
  intros Hpc. repeat split; intros; unfold handleOffer; run; rewrite Hpc; run;
    repeat match goal with
           | H : _ = (_, _) |- _ => rewrite H; clear H; run
           end;
    rewrite <- ?app_assoc; reflexivity.
Qed.

(** ** The mutex and the control channel *)

Lemma SignalingStep_refl (w : World) : SignalingStep w w.
Proof.
  split; [reflexivity|]. exists []. rewrite app_nil_r. repeat split.
Qed.

Lemma lockScan_app (h h' : bool) (d1 d2 : list Event) :
  lockScan h d1 = Some h' -> lockScan h (d1 ++ d2) = lockScan h' d2.
Proof.
  revert h. induction d1 as [|e d1 IH]; intros h; cbn [lockScan app].
  - intros H. inversion H. reflexivity.
  - destruct e; try apply IH; destruct h; try discriminate; apply IH.
Qed.

Lemma SignalingStep_trans (w1 w2 w3 : World) :
  SignalingStep w1 w2 -> SignalingStep w2 w3 -> SignalingStep w1 w3.
Proof.
  intros [Hm1 (d1 & Ht1 & Ha1 & Hc1 & Hl1)] [Hm2 (d2 & Ht2 & Ha2 & Hc2 & Hl2)].
  split; [congruence|]. exists (d1 ++ d2)%list.
  rewrite Ht2, Ht1, <- app_assoc, tracksAdded_app, Ha1, Ha2, filter_app, Hc1, Hc2.
  rewrite (lockScan_app _ _ _ _ Hl1). repeat split. exact Hl2.
Qed.

Ltac step_leaf :=
  unfold SignalingStep;
  cbn [fst snd mgr lib trace setMu mu peerConnection videoTrack audioTrack wsConn
       udpListener stopChan];
  (split; [reflexivity|]);
  first
    [ exists []; split; [symmetry; apply app_nil_r | repeat split]
    | eexists; split; [rewrite <- ?app_assoc; reflexivity | repeat split] ].

Lemma handleOffer_step (offer : option SessionDescription) (w : World) :
  mu (mgr w) = false -> SignalingStep w (snd (handleOffer offer w)).
Proof.
  destruct w as [[pc v a ws held ul sc] l t]. cbn [mgr mu]. intros ->.
  unfold handleOffer. run.
  destruct offer as [sd|]; [|step_leaf]. destruct pc as [pc|]; [|step_leaf]. run.
  libcase; [step_leaf|]. libcase; [step_leaf|]. libcase; [step_leaf|].
  destruct (libGatheringComplete pc l2) as [l3|]; [|step_leaf]. run.
  destruct ws as [conn|].
  - rewrite locked_write by reflexivity. unfold withDefer.
    libcase; unfold ret; cbv beta iota; rewrite Unlock_run by reflexivity; step_leaf.
  - rewrite bind_Lock by reflexivity. cbv beta. unfold withDefer. tidy.
    unfold panic. rewrite Unlock_run by reflexivity. step_leaf.
Qed.

Lemma handleSignalingMessage_step (msg : Message) (w : World) :
  mu (mgr w) = false -> SignalingStep w (snd (handleSignalingMessage msg w)).
Proof.
  intros Hmu. unfold handleSignalingMessage.
  destruct (Type_ msg =? "offer"); [apply handleOffer_step; exact Hmu|].
  destruct (Type_ msg =? "ice"); [|apply SignalingStep_refl].
  unfold handleICECandidate.
  destruct (ICE msg) as [c|]; [|apply SignalingStep_refl].
  run. destruct (peerConnection (mgr w)); [|apply SignalingStep_refl]. run. step_leaf.
Qed.

Lemma onICECandidate_step (ws0 : option WSConn) (c : option ICECandidate) (w : World) :
  mu (mgr w) = false -> SignalingStep w (snd (onICECandidate ws0 c w)).
Proof.
  destruct w as [[pc v a ws held ul sc] l t]. cbn [mgr mu]. intros ->.
  unfold onICECandidate.
  destruct c as [c|]; [|apply SignalingStep_refl].
  destruct ws0 as [conn|].
  - rewrite locked_write by reflexivity. unfold withDefer.
    libcase; unfold logPrintf, emit, ret; cbv beta iota;
      rewrite Unlock_run by reflexivity; step_leaf.
  - rewrite bind_Lock by reflexivity. cbv beta. unfold withDefer. tidy.
    unfold panic. rewrite Unlock_run by reflexivity. step_leaf.
Qed.

Lemma readLoop_step (inbox : list Message) (readErr : string) (w : World) :
  mu (mgr w) = false -> SignalingStep w (snd (readLoop inbox readErr w)).
Proof.
  revert w. induction inbox as [|msg rest IH]; intros w Hmu; cbn [readLoop].
  - unfold logPrintf, emit. step_leaf.
  - unfold bind at 1.
    pose proof (handleSignalingMessage_step msg w Hmu) as Hs.
    destruct (handleSignalingMessage msg w) as [[[e|]| |] w1]; cbn [snd] in Hs;
      try exact Hs.
    + rewrite bind_logPrintf.
      eapply SignalingStep_trans; [exact Hs|].
      eapply SignalingStep_trans;
        [|apply IH; unfold logged; cbn [mgr]; destruct Hs as [Hm _]; rewrite Hm; exact Hmu].
      unfold logged. step_leaf.
    + eapply SignalingStep_trans; [exact Hs|].
      apply IH. destruct Hs as [Hm _]. rewrite Hm. exact Hmu.
Qed.

(** X5. Starting with the mutex free, the read loop over any sequence of
    inbound messages -- however it ends -- the candidate callback, and the
    callback followed by the loop all keep the mutex discipline: every write
    to the control channel happens between a [Lock] and its [Unlock], and
    the mutex is free afterwards.  The manager is left as it was, no track
    is added and nothing is closed. *)
Theorem signaling_keeps_mutex_discipline
  (ws : option WSConn) (inbox : list Message) (readErr : string)
  (c : option ICECandidate) (w : World) :
  mu (mgr w) = false ->
  SignalingStep w (snd (readLoop inbox readErr w))
  /\ SignalingStep w (snd (onICECandidate ws c w))
  /\ SignalingStep w (snd (readLoop inbox readErr (snd (onICECandidate ws c w)))).
Proof.
  intros Hmu.
  pose proof (onICECandidate_step ws c w Hmu) as Hc.
  split; [apply readLoop_step; exact Hmu|]. split; [exact Hc|].
  eapply SignalingStep_trans; [exact Hc|].
  apply readLoop_step. destruct Hc as [Hm _]. rewrite Hm. exact Hmu.
Qed.

(** X6. The candidate callback: a nil candidate does nothing; a candidate,
    with the mutex free, is converted with [ToJSON] and written as exactly
    one "ice" message under the mutex, a failed write being logged and not
    reported further; with the mutex held the callback waits and has
    written nothing. *)
Theorem onICECandidate_sends_one_ice_message
  (conn : WSConn) (c : ICECandidate) (w : World) :
  let msg : Message :=
    {| Type_ := "ice"; SDP := None; ICE := Some (libToJSON c); Error_ := "" |} in
  onICECandidate (Some conn) None w = (Ok tt, w)
  /\ (mu (mgr w) = true -> onICECandidate (Some conn) (Some c) w = (Blocked, w))
  /\ (mu (mgr w) = false ->
      onICECandidate (Some conn) (Some c) w
      = (Ok tt,
         {| mgr := mgr w;
            lib := snd (libWriteJSON conn msg (lib w));
            trace := trace w
                     ++ [EvLock; EvWriteJSON msg]
                     ++ match fst (libWriteJSON conn msg (lib w)) with
                        | Some e => [EvLog ("Failed to send ICE candidate: " ++ e)]
                        | None => []
                        end
                     ++ [EvUnlock] |})).
Proof.
  intros msg. split; [reflexivity|]. split.
  - intros Hmu. unfold onICECandidate, Lock. run. rewrite Hmu. reflexivity.
  - intros Hmu. unfold onICECandidate. fold msg.
    rewrite locked_write by exact Hmu. unfold withDefer.
    destruct (libWriteJSON conn msg (lib w)) as [[e|] l']; cbn [fst snd];
      unfold logPrintf, emit, ret; cbv beta iota;
      rewrite Unlock_run by reflexivity; cbn [mgr lib trace];
      rewrite setMu_round_trip by exact Hmu;
      rewrite <- ?app_assoc; reflexivity.
Qed.

(** ** The control loop and the connection handler *)

Lemma handleSignalingMessage_no_panic
  (msg : Message) (w : World) (pc : PeerConnection) (conn : WSConn) :
  peerConnection (mgr w) = Some pc ->
  wsConn (mgr w) = Some conn ->
  mu (mgr w) = false ->
  (Type_ msg = "offer" -> SDP msg <> None) ->
  forall s, fst (handleSignalingMessage msg w) <> Panic s.
Proof.
  intros Hpc Hws Hmu Hsdp s. unfold handleSignalingMessage.
  destruct (String.eqb_spec (Type_ msg) "offer") as [Ho|_].
  - destruct (SDP msg) as [sd|]; [|exfalso; apply (Hsdp Ho); reflexivity].
    unfold handleOffer. run. rewrite Hpc. run.
    libcase; [discriminate|]. libcase; [discriminate|]. libcase; [discriminate|].
    destruct (libGatheringComplete pc l1) as [l3|]; [|discriminate]. run.
    rewrite Hws. rewrite locked_write by exact Hmu. unfold withDefer.
    libcase; unfold ret; cbv beta iota; rewrite Unlock_run by reflexivity; discriminate.
  - destruct (Type_ msg =? "ice"); [|discriminate].
    unfold handleICECandidate. destruct (ICE msg) as [c|]; [|discriminate].
    run. rewrite Hpc. run. discriminate.
Qed.

(** X7. In a session whose peer connection and control channel are set and
    whose mutex is free, a sequence of messages in which every "offer"
    carries its sdp never makes the read loop panic, whatever the library
    answers; and whenever the loop returns, the last thing it did was to log
    the failed read, so only a read error ends it. *)
Theorem read_loop_ends_only_on_read_error
  (inbox : list Message) (readErr : string) (w : World)
  (pc : PeerConnection) (conn : WSConn) :
  peerConnection (mgr w) = Some pc ->
  wsConn (mgr w) = Some conn ->
  mu (mgr w) = false ->
  Forall (fun msg => Type_ msg = "offer" -> SDP msg <> None) inbox ->
  (forall s, fst (readLoop inbox readErr w) <> Panic s)
  /\ (fst (readLoop inbox readErr w) = Ok tt ->
      exists pre,
        trace (snd (readLoop inbox readErr w))
        = (pre ++ [EvLog ("WebSocket read error: " ++ readErr)])%list).
Proof.
  revert w. induction inbox as [|msg rest IH]; intros w Hpc Hws Hmu Hall; cbn [readLoop].
  - split; [discriminate|]. intros _. eexists. reflexivity.
  - inversion Hall as [|? ? Hmsg Hrest]; subst.
    pose proof (handleSignalingMessage_no_panic msg w pc conn Hpc Hws Hmu Hmsg) as Hnp.
    pose proof (handleSignalingMessage_step msg w Hmu) as [Hm _].
    unfold bind, logPrintf, emit.
    destruct (handleSignalingMessage msg w) as [[[e|]| |] w1]; cbv beta iota;
      cbn [fst snd] in *.
    + apply IH; cbn [mgr]; rewrite ?Hm; assumption.
    + apply IH; rewrite ?Hm; assumption.
    + exfalso. eapply Hnp. reflexivity.
    + split; discriminate.
Qed.

Lemma bind_Ok {A B} (c : M A) (k : A -> M B) (w w1 : World) (a : A) :
  c w = (Ok a, w1) -> bind c k w = k a w1.
Proof. intros H. unfold bind. rewrite H. reflexivity. Qed.


(** ** The ingest task as a whole *)

Lemma ingest_events_touch_nothing (delta : list Event) :
  forallb isIngestEvent delta = true ->
  filter isTeardown delta = [] /\ filter isUDPClose delta = []
  /\ lockScan false delta = Some false.
Proof.
  induction delta as [|e delta IH]; [repeat split|].
  cbn [forallb]. intros H. apply andb_true_iff in H as [He Hd].
  destruct (IH Hd) as (Ht & Hu & Hl).
  destruct e; cbn in He; try discriminate; cbn; repeat split; assumption.
Qed.

(** X9. Over any reads, with whatever buffers and in whatever state, the
    ingest loop leaves the manager alone and does nothing but read, log and
    write samples: it never writes to the control channel, never takes the
    mutex, never negotiates or adds a track, and never closes anything. *)
Theorem ingest_loop_keeps_to_itself (b : Buffers) (reads : list ReadResult) (w : World) :
  mgr (snd (ingestLoop b reads w)) = mgr w
  /\ exists delta,
       trace (snd (ingestLoop b reads w)) = (trace w ++ delta)%list
       /\ forallb isIngestEvent delta = true
       /\ sent delta = []
       /\ tracksAdded delta = []
       /\ filter isNegotiation delta = []
       /\ filter isTeardown delta = []
       /\ lockScan false delta = Some false.
Proof.
  destruct (extendsQuietly_ingestLoop reads b w) as [Hm [delta [Ht Hd]]].
  split; [exact Hm|]. exists delta. split; [exact Ht|]. split; [exact Hd|].
  destruct (ingest_events_build_nothing delta Hd) as (_ & Ha & Hs & Hn).
  destruct (ingest_events_touch_nothing delta Hd) as (Hc & _ & Hl).
  repeat split; assumption.
Qed.

Lemma samplesWritten_app (tr1 tr2 : list Event) :
  samplesWritten (tr1 ++ tr2) = (samplesWritten tr1 ++ samplesWritten tr2)%list.
Proof.
  induction tr1 as [|e tr1 IH]; simpl; [reflexivity|].
  destruct e; simpl; rewrite ?IH; reflexivity.
Qed.

Lemma samplesWritten_writeAll (t : TrackLocalStaticSample) (what : string)
  (samples : list Sample) (w : World) :
  samplesWritten (trace (writeAll t what samples w))
  = (samplesWritten (trace w) ++ map (pair t) samples)%list.
Proof.
  revert w. induction samples as [|s rest IH]; intros w; cbn [writeAll map].
  - rewrite app_nil_r. reflexivity.
  - destruct (libWriteSample t s (lib w)) as [[e|] l]; rewrite IH; cbn [trace];
      rewrite ?samplesWritten_app; cbn [samplesWritten]; rewrite ?app_nil_r, <- ?app_assoc;
      reflexivity.
Qed.

(** X11. A packet of payload type 96 (or 111) makes the iteration write to
    the video (audio) track exactly the samples its builder pops after the
    push, once each and in pop order, and nothing to the other track --
    also when some or all of these writes fail. *)
Theorem popped_samples_written_once_in_order
  (b : Buffers) (data : list byte) (packet : Packet) (w : World)
  (video audio : TrackLocalStaticSample) :
  stopChan (mgr w) <> Some ChanClosed ->
  videoTrack (mgr w) = Some video ->
  audioTrack (mgr w) = Some audio ->
  libUnmarshal (firstn 1500 data) = inr packet ->
  (PayloadType packet = 96%Z ->
     samplesWritten (trace (snd (ingestIteration b (Datagram data) w)))
     = (samplesWritten (trace w)
        ++ map (pair video) (fst (popAll (sbPush (videoBuffer b) packet))))%list)
  /\ (PayloadType packet = 111%Z ->
     samplesWritten (trace (snd (ingestIteration b (Datagram data) w)))
     = (samplesWritten (trace w)
        ++ map (pair audio) (fst (popAll (sbPush (audioBuffer b) packet))))%list).
Proof.
  intros Hopen Hv Ha Hparse.
  rewrite ingestIteration_reads by assumption. rewrite Hparse.
  split; intros Hpt; rewrite Hpt; cbn [Z.eqb Pos.eqb]; unfold bind.
  - rewrite (drain_run videoTrack "video" video) by exact Hv. cbn [snd ret].
    rewrite samplesWritten_writeAll. unfold afterRead. cbn [trace].
    rewrite samplesWritten_app. cbn [samplesWritten]. rewrite app_nil_r. reflexivity.
  - rewrite (drain_run audioTrack "audio" audio) by exact Ha. cbn [snd ret].
    rewrite samplesWritten_writeAll. unfold afterRead. cbn [trace].
    rewrite samplesWritten_app. cbn [samplesWritten]. rewrite app_nil_r. reflexivity.
Qed.

(** ** Shutdown *)

Lemma close_run (w : World) (pc : PeerConnection) :
  stopChan (mgr w) = Some ChanOpen ->
  peerConnection (mgr w) = Some pc ->
  exists w' delta,
    close w = (Ok tt, w')
    /\ mgr w' = setStopChan (Some ChanClosed) (mgr w)
    /\ trace w' = (trace w ++ delta)%list
    /\ filter isTeardown delta
       = (EvCloseChan
          :: match udpListener (mgr w) with Some _ => [EvUDPClose] | None => [] end
          ++ [EvClose])%list.
Proof.
  intros Hs Hpc. unfold close, pcClose. run. rewrite Hs. run.
  destruct (udpListener (mgr w)) as [conn|] eqn:Hu; run; rewrite Hpc; run;
    libcase;
    do 2 eexists; (split; [reflexivity|]); tidy;
    (split; [reflexivity|]);
    (split; [unfold logged; tidy; rewrite <- !app_assoc; reflexivity|]);
    reflexivity.
Qed.

Lemma ingestLoop_closed (b : Buffers) (r : ReadResult) (reads : list ReadResult)
  (w : World) :
  stopChan (mgr w) = Some ChanClosed ->
  ingestLoop b (r :: reads) w = (Ok Returned, w).
Proof.
  intros Hc. cbn [ingestLoop]. unfold ingestIteration. run. rewrite Hc. reflexivity.
Qed.

(** X12. Once [close] has run on a session, the ingest loop stops at its
    next iteration: it sees the closed channel, returns without reading and
    without touching the session, and ignores whatever else would have
    arrived. *)
Theorem ingest_loop_returns_after_close
  (w : World) (pc : PeerConnection) (b : Buffers) (r : ReadResult)
  (reads : list ReadResult) :
  stopChan (mgr w) = Some ChanOpen ->
  peerConnection (mgr w) = Some pc ->
  fst (close w) = Ok tt
  /\ ingestIteration b r (snd (close w)) = (Ok Return, snd (close w))
  /\ ingestLoop b (r :: reads) (snd (close w)) = (Ok Returned, snd (close w)).
Proof.
  intros Hs Hpc. destruct (close_run w pc Hs Hpc) as (w' & delta & Hc & Hm & _).
  rewrite Hc. cbn [fst snd].
  assert (Hclosed : stopChan (mgr w') = Some ChanClosed) by (rewrite Hm; reflexivity).
  split; [reflexivity|]. split.
  - unfold ingestIteration. run. rewrite Hclosed. reflexivity.
  - apply ingestLoop_closed. exact Hclosed.
Qed.

Lemma ingestIteration_continues (b : Buffers) (r : ReadResult) (w : World)
  (video audio : TrackLocalStaticSample) :
  stopChan (mgr w) <> Some ChanClosed ->
  videoTrack (mgr w) = Some video ->
  audioTrack (mgr w) = Some audio ->
  exists b', fst (ingestIteration b r w) = Ok (Continue b').
Proof.
  intros Hopen Hv Ha. rewrite ingestIteration_reads by assumption.
  destruct r as [data|e|e]; [|eexists; reflexivity|eexists; reflexivity].
  destruct (libUnmarshal (firstn 1500 data)) as [e|packet]; [eexists; reflexivity|].
  destruct (PayloadType packet =? 96)%Z.
  { unfold bind. rewrite (drain_run videoTrack "video" video) by exact Hv.
    eexists. reflexivity. }
  destruct (PayloadType packet =? 111)%Z; [|eexists; reflexivity].
  unfold bind. rewrite (drain_run audioTrack "audio" audio) by exact Ha.
  eexists. reflexivity.
Qed.

Lemma ingestLoop_keeps_running (reads : list ReadResult) (b : Buffers) (w : World)
  (video audio : TrackLocalStaticSample) :
  stopChan (mgr w) <> Some ChanClosed ->
  videoTrack (mgr w) = Some video ->
  audioTrack (mgr w) = Some audio ->
  exists b', fst (ingestLoop b reads w) = Ok (Running b').
Proof.
  revert b w. induction reads as [|r rest IH]; intros b w Hopen Hv Ha; cbn [ingestLoop].
  - eexists. reflexivity.
  - destruct (ingestIteration_continues b r w video audio Hopen Hv Ha) as [b' Hb].
    pose proof (extendsQuietly_ingestIteration b r w) as [Hm _].
    unfold bind. destruct (ingestIteration b r w) as [o w1]. cbn [fst snd] in *.
    subst o. apply IH; rewrite Hm; assumption.
Qed.

Lemma handleMedia_start_open
  (reads : list ReadResult) (w : World) (conn : UDPConn) (l : Lib)
  (video audio : TrackLocalStaticSample) :
  libListenUDP "127.0.0.1" 5004 (lib w) = (inr conn, l) ->
  stopChan (mgr w) <> Some ChanClosed ->
  videoTrack (mgr w) = Some video ->
  audioTrack (mgr w) = Some audio ->
  exists w',
    handleMedia reads w = (Blocked, w')
    /\ mgr w' = setUdpListener (Some conn) (mgr w).
Proof.
  intros Hl Hopen Hv Ha. unfold handleMedia. run. rewrite Hl. tidy.
  unfold withDefer, samplebuilderNew. run.
  match goal with
  | |- context [bind (ingestLoop ?b reads) ?k ?w0] =>
      destruct (ingestLoop_keeps_running reads b w0 video audio Hopen Hv Ha)
        as [b' Hrun];
      pose proof (extendsQuietly_ingestLoop reads b w0) as [Hm _];
      unfold bind at 1;
      destruct (ingestLoop b reads w0) as [o w1]
  end.
  cbn [fst snd mgr] in *. subst o.
  unfold recvStopChan. run. rewrite Hm. cbn [setUdpListener stopChan].
  destruct (stopChan (mgr w)) as [[|]|]; try congruence;
    unfold block; eexists; (split; [reflexivity|]); exact Hm.
Qed.

(** X13. [handleMedia] with the socket open.  In a session that is already
    shut down it starts no read and returns at once, closing the socket it
    opened.  In a session that is not shut down (tracks in place) it never
    returns by itself whatever is read: it stays blocked on the shutdown
    channel, with the socket recorded in [udpListener] and not closed. *)
Theorem handleMedia_returns_only_after_close
  (reads : list ReadResult) (w : World) (conn : UDPConn) (l : Lib) :
  libListenUDP "127.0.0.1" 5004 (lib w) = (inr conn, l) ->
  (stopChan (mgr w) = Some ChanClosed ->
     handleMedia reads w
     = (Ok tt,
        {| mgr := setUdpListener (Some conn) (mgr w);
           lib := snd (libUDPClose conn l);
           trace := trace w ++ [EvListenUDP "127.0.0.1" 5004;
                                EvSampleBuilderNew 10 VP8Packet 90000;
                                EvSampleBuilderNew 10 OpusPacket 48000;
                                EvGo "ingest"; EvUDPClose] |}))
  /\ (forall video audio,
        stopChan (mgr w) <> Some ChanClosed ->
        videoTrack (mgr w) = Some video ->
        audioTrack (mgr w) = Some audio ->
        exists w' delta,
          handleMedia reads w = (Blocked, w')
          /\ mgr w' = setUdpListener (Some conn) (mgr w)
          /\ trace w' = (trace w ++ delta)%list
          /\ filter isTeardown delta = []).
Proof.
  intros Hl. split.
  - intros Hc. unfold handleMedia. run. rewrite Hl. tidy.
    unfold withDefer, samplebuilderNew. run.
    match goal with
    | |- context [bind (ingestLoop ?b reads) ?k ?w0] =>
        assert (Hloop : exists st, ingestLoop b reads w0 = (Ok st, w0))
    end.
    { destruct reads as [|r rest]; [eexists; reflexivity|].
      eexists. apply ingestLoop_closed. exact Hc. }
    destruct Hloop as [st Hloop]. rewrite (bind_Ok _ _ _ _ _ Hloop).
    unfold recvStopChan. run. cbn [setUdpListener stopChan]. rewrite Hc.
    unfold ret. cbv beta iota. run. rewrite <- !app_assoc. reflexivity.
  - intros video audio Hopen Hv Ha. unfold handleMedia. run. rewrite Hl. tidy.
    unfold withDefer, samplebuilderNew. run.
    match goal with
    | |- context [bind (ingestLoop ?b reads) ?k ?w0] =>
        destruct (ingestLoop_keeps_running reads b w0 video audio Hopen Hv Ha)
          as [b' Hrun];
        pose proof (extendsQuietly_ingestLoop reads b w0) as [Hm [delta [Ht Hd]]];
        unfold bind at 1;
        destruct (ingestLoop b reads w0) as [o w1]
    end.
    cbn [fst snd mgr trace] in *. subst o.
    unfold recvStopChan. run. rewrite Hm. cbn [setUdpListener stopChan].
    destruct (ingest_events_touch_nothing delta Hd) as (Hq & _ & _).
    destruct (stopChan (mgr w)) as [[|]|]; try congruence;
      unfold block; eexists; eexists; (split; [reflexivity|]);
      (split; [exact Hm|]); rewrite Ht, <- !app_assoc;
      (split; [reflexivity|]); cbn [app filter isTeardown]; exact Hq.
Qed.

(** X14. [close] after [handleMedia] has started in an open session: the
    socket [handleMedia] stored in [udpListener] is closed by [close],
    between closing the shutdown channel and closing the peer connection,
    each exactly once; and after that the blocked [handleMedia] can go on
    (the receive on the shutdown channel is ready). *)
Theorem close_after_media_start_closes_socket
  (reads : list ReadResult) (w : World) (conn : UDPConn) (l : Lib)
  (pc : PeerConnection) (video audio : TrackLocalStaticSample) :
  libListenUDP "127.0.0.1" 5004 (lib w) = (inr conn, l) ->
  stopChan (mgr w) = Some ChanOpen ->
  peerConnection (mgr w) = Some pc ->
  videoTrack (mgr w) = Some video ->
  audioTrack (mgr w) = Some audio ->
  exists w2 delta,
    close (snd (handleMedia reads w)) = (Ok tt, w2)
    /\ trace w2 = (trace (snd (handleMedia reads w)) ++ delta)%list
    /\ filter isTeardown delta = [EvCloseChan; EvUDPClose; EvClose]
    /\ recvStopChan w2 = (Ok tt, w2).
Proof.
  intros Hl Hs Hpc Hv Ha.
  assert (Hopen : stopChan (mgr w) <> Some ChanClosed) by (rewrite Hs; discriminate).
  pose proof (handleMedia_start_open reads w conn l video audio Hl Hopen Hv Ha)
    as (w1 & Hmedia & Hm1).
  rewrite Hmedia. cbn [snd].
  assert (Hs1 : stopChan (mgr w1) = Some ChanOpen) by (rewrite Hm1; exact Hs).
  assert (Hpc1 : peerConnection (mgr w1) = Some pc) by (rewrite Hm1; exact Hpc).
  destruct (close_run w1 pc Hs1 Hpc1) as (w2 & delta & Hc & Hm2 & Ht & Hq).
  exists w2, delta. split; [exact Hc|]. split; [exact Ht|].
  split; [rewrite Hq, Hm1; reflexivity|].
  unfold recvStopChan. run. rewrite Hm2. reflexivity.
Qed.

(** ** The session as a whole *)





(** The loop of a session over control messages only is [readLoop]. *)
Lemma sessionLoop_inbound (ws : option WSConn) (task : MediaTask)
  (inbox : list Message) (readErr : string) (w : World) :
  sessionLoop ws task (map Inbound inbox) readErr w
  = match readLoop inbox readErr w with
    | (Ok _, w') => (Ok ReadFailed, w')
    | (Panic s, w') => (Panic s, w')
    | (Blocked, w') => (Blocked, w')
    end.
Proof.
  revert w. induction inbox as [|msg rest IH]; intros w; cbn [map sessionLoop readLoop].
  - reflexivity.
  - unfold bind at 1 3.
    destruct (handleSignalingMessage msg w) as [[[e|]| |] w1]; try reflexivity.
    + rewrite !bind_logPrintf. apply IH.
    + apply IH.
Qed.


(** The first part of [handleMedia] as a turn of the session is what
    [handleMedia] itself does before it blocks. *)
Lemma startMedia_handleMedia (w : World) :
  stopChan (mgr w) <> Some ChanClosed ->
  snd (startMedia w) = snd (handleMedia [] w).
Proof.
  intros Hopen. unfold startMedia, handleMedia, samplebuilderNew. run.
  destruct (libListenUDP "127.0.0.1" 5004 (lib w)) as [[e|conn] l]; run.
  - reflexivity.
  - unfold withDefer. run. cbn [ingestLoop]. run. unfold recvStopChan. run.
    cbn [setUdpListener stopChan].
    destruct (stopChan (mgr w)) as [[|]|]; try congruence; reflexivity.
Qed.



End Properties.

(** * Concrete sessions

    The statements above, applied to sessions of the executable
    collaborator. *)

Import Toy.

(** An offer handled in a freshly constructed session: one answer, naming
    both tracks, after gathering. *)
Lemma valid_offer_answered_once_after_gathering_witness :
  Reachable (Some tt) (fresh []) (session [])
  /\ peerConnection (mgr (session [])) = Some tt
  /\ exists l1 l2 l3,
       libSetRemoteDescription tt "offer-sdp" (lib (session [])) = (None, l1)
       /\ libCreateAnswer tt l1 = (inr "answer:video,audio", l2)
       /\ libSetLocalDescription tt "answer:video,audio" l2 = (None, l3)
       /\ TracksAddedBeforeNegotiation (trace (session []))
       /\ AnswersOnceAfterGathering tt tt "offer-sdp" "answer:video,audio" l3 (session []).
Proof.
  assert (Hreach : Reachable (Some tt) (fresh []) (session []))
    by (apply ReachNew; reflexivity).
  split; [exact Hreach|]. split; [reflexivity|].
  do 3 eexists.
  split; [reflexivity|]. split; [reflexivity|]. split; [reflexivity|].
  pose proof (valid_offer_answered_once_after_gathering tt (fresh []) (session []) tt
                "offer-sdp" "answer:video,audio" _ _ _ Hreach eq_refl eq_refl eq_refl
                eq_refl) as (Ht & _ & _ & Ha).
  split; [exact Ht | exact Ha].
Defined.

(** Closing a freshly constructed session once, with a peer connection
    whose [Close] fails: the failure is logged and [close] returns. *)
Lemma close_once_returns_second_close_panics_witness :
  stopChan (mgr (session ["Close"])) = Some ChanOpen
  /\ peerConnection (mgr (session ["Close"])) = Some tt
  /\ udpListener (mgr (session ["Close"])) = None
  /\ close (session ["Close"])
     = (Ok tt,
        {| mgr := setStopChan (Some ChanClosed) (mgr (session ["Close"]));
           lib := snd (closePC (lib (session ["Close"])));
           trace := trace (session ["Close"])
                    ++ [EvCloseChan; EvClose;
                        EvLog "Error closing peer connection: Close failed"] |})
  /\ fst (close (snd (close (session ["Close"])))) = Panic "close of closed channel".
Proof.
  split; [reflexivity|]. split; [reflexivity|]. split; [reflexivity|].
  destruct (close_once_returns_second_close_panics (C := collab) (session ["Close"]) tt
              eq_refl eq_refl) as (Hfirst & Hsecond & _).
  split; [exact Hfirst|].
  exact (eq_trans (f_equal (fun r => fst (close (snd r))) Hfirst) (f_equal fst Hsecond)).
Defined.

(** Closing it twice: the second call panics. *)
Lemma close_twice_panics_counterexample :
  fst (newWebRTCManager (Some tt) (initWorld (fresh []))) = Ok (Some ManagerRef, None)
  /\ udpListener (mgr (session [])) = None
  /\ fst (close (session [])) = Ok tt
  /\ fst (close (snd (close (session [])))) = Panic "close of closed channel"
  /\ fst (bind close (fun _ => close) (session [])) = Panic "close of closed channel".
Proof. repeat split. Qed.

Lemma unknown_type_reported_and_skipped_witness :
  Type_ bogusMsg <> "offer"
  /\ Type_ bogusMsg <> "ice"
  /\ handleSignalingMessage bogusMsg (session [])
     = (Ok (Some "unknown message type: bogus"), session [])
  /\ readLoop [bogusMsg; offerMsg] "EOF" (session [])
     = readLoop [offerMsg] "EOF"
         (logged "Failed to handle signaling message: unknown message type: bogus"
            (session [])).
Proof.
  assert (Ho : Type_ bogusMsg <> "offer") by (cbn; discriminate).
  assert (Hi : Type_ bogusMsg <> "ice") by (cbn; discriminate).
  split; [exact Ho|]. split; [exact Hi|].
  exact (unknown_type_reported_and_skipped bogusMsg [offerMsg] "EOF" (session []) Ho Hi).
Defined.

Lemma ice_candidate_nil_is_noop_present_is_added_witness :
  Type_ endOfCandidates = "ice"
  /\ handleSignalingMessage endOfCandidates (session []) = (Ok None, session []).
Proof.
  split; [reflexivity|].
  destruct (ice_candidate_nil_is_noop_present_is_added endOfCandidates (session []) eq_refl)
    as (Hd & Hnil & _).
  exact (eq_trans Hd Hnil).
Defined.

Lemma packets_dispatched_by_payload_type_witness :
  stopChan (mgr (session [])) <> Some ChanClosed
  /\ videoTrack (mgr (session [])) = Some theVideoTrack
  /\ audioTrack (mgr (session [])) = Some theAudioTrack
  /\ libUnmarshal (firstn 1500 [x60; x01])
     = inr {| PayloadType := 96; SequenceNumber := 1; Timestamp := 0;
              Marker := false; Payload := [] |}
  /\ fst (ingestIteration emptyBuffers (Datagram [x60; x01]) (session []))
     = Ok (Continue {| videoBuffer := []; audioBuffer := [] |}).
Proof.
  assert (Hopen : stopChan (mgr (session [])) <> Some ChanClosed) by (cbn; discriminate).
  split; [exact Hopen|]. split; [reflexivity|]. split; [reflexivity|].
  split; [reflexivity|].
  destruct (packets_dispatched_by_payload_type emptyBuffers [x60; x01] _ (session [])
              theVideoTrack theAudioTrack Hopen eq_refl eq_refl eq_refl)
    as (Hvideo & _ & _).
  rewrite (Hvideo eq_refl). reflexivity.
Defined.

(** A session whose ingest socket could not be opened makes no builder. *)
Lemma no_builders_when_listen_fails_counterexample :
  fst (newWebRTCManager (Some tt) (initWorld (fresh ["ListenUDP"])))
  = Ok (Some ManagerRef, None)
  /\ fst (handleMedia [Datagram [x60; x01]] (session ["ListenUDP"])) = Ok tt
  /\ buildersMade
       (trace (snd (handleMedia [Datagram [x60; x01]] (session ["ListenUDP"])))) = [].
Proof. repeat split. Qed.

Lemma read_failures_do_not_stop_ingest_witness :
  stopChan (mgr (session [])) <> Some ChanClosed
  /\ ingestIteration emptyBuffers (ReadTimeout "i/o timeout") (session [])
     = (Ok (Continue emptyBuffers), afterRead (session []))
  /\ ingestIteration emptyBuffers (ReadError "connection refused") (session [])
     = (Ok (Continue emptyBuffers),
        logged "Error during read: connection refused" (afterRead (session [])))
  /\ ingestIteration emptyBuffers (Datagram [x60]) (session [])
     = (Ok (Continue emptyBuffers),
        logged "Error unmarshaling RTP packet: RTP header size insufficient"
          (afterRead (session []))).
Proof.
  assert (Hopen : stopChan (mgr (session [])) <> Some ChanClosed) by (cbn; discriminate).
  split; [exact Hopen|].
  destruct (read_failures_do_not_stop_ingest emptyBuffers [] (session []) Hopen)
    as (Htimeout & Herror & Hparse).
  split; [exact (proj1 (Htimeout "i/o timeout"))|].
  split; [exact (proj1 (Herror "connection refused"))|].
  exact (proj1 (Hparse [x60] "RTP header size insufficient" eq_refl)).
Defined.

Lemma offer_without_sdp_panics_witness :
  Type_ noSdpOffer = "offer"
  /\ SDP noSdpOffer = None
  /\ handleSignalingMessage noSdpOffer (session []) = (Panic nilDereference, session [])
  /\ readLoop [noSdpOffer; offerMsg] "EOF" (session []) = (Panic nilDereference, session []).
Proof.
  split; [reflexivity|]. split; [reflexivity|].
  destruct (offer_without_sdp_panics noSdpOffer [offerMsg] "EOF" (session [])
              eq_refl eq_refl) as (Hd & Hp & Hloop).
  split; [exact (eq_trans Hd Hp) | exact Hloop].
Defined.

(** Adding the audio track fails: the peer connection is closed. *)
Lemma construction_failure_closes_peer_connection_witness :
  libRegisterDefaultCodecs (lib (initWorld (fresh ["AddTrack audio"])))
  = (None, fresh ["AddTrack audio"])
  /\ libNewPeerConnection stunConfig (fresh ["AddTrack audio"])
     = (inr tt, fresh ["AddTrack audio"])
  /\ libAddTrack (Collaborators := collab) tt theAudioTrack
       (snd (addTrack theVideoTrack (fresh ["AddTrack audio"])))
     = (Some "AddTrack audio failed", snd (addTrack theVideoTrack (fresh ["AddTrack audio"])))
  /\ newWebRTCManager (Some tt) (initWorld (fresh ["AddTrack audio"]))
     = (Ok (None, Some "failed to add audio track: AddTrack audio failed"),
        {| mgr := setAudioTrack (Some theAudioTrack)
                    (setVideoTrack (Some theVideoTrack) (allocatedManager tt (Some tt)));
           lib := snd (closePC (snd (addTrack theVideoTrack (fresh ["AddTrack audio"]))));
           trace := [EvRegisterDefaultCodecs; EvNewPeerConnection stunConfig;
                     EvNewTrackLocalStaticSample MimeTypeVP8 "video" "pion";
                     EvNewTrackLocalStaticSample MimeTypeOpus "audio" "pion";
                     EvAddTrack theVideoTrack; EvAddTrack theAudioTrack; EvClose] |})
  /\ closed (lib (snd (newWebRTCManager (Some tt) (initWorld (fresh ["AddTrack audio"])))))
     = true.
Proof.
  split; [reflexivity|]. split; [reflexivity|]. split; [reflexivity|].
  destruct (construction_failure_closes_peer_connection (C := collab) (Some tt)
              (initWorld (C := collab) (fresh ["AddTrack audio"])) _ _ tt eq_refl eq_refl)
    as (_ & _ & _ & Haudio).
  pose proof (Haudio _ _ _ _ _ eq_refl eq_refl eq_refl eq_refl) as Hrun.
  split; [exact Hrun | exact (f_equal (fun r => closed (lib (snd r))) Hrun)].
Defined.

(** ** The further properties on concrete sessions *)

Lemma newWebRTCManager_early_failure_witness :
  libRegisterDefaultCodecs (lib (initWorld (fresh ["RegisterDefaultCodecs"])))
  = (Some "RegisterDefaultCodecs failed", fresh ["RegisterDefaultCodecs"])
  /\ newWebRTCManager (Some tt) (initWorld (fresh ["RegisterDefaultCodecs"]))
     = (Ok (None, Some "failed to register default codecs: RegisterDefaultCodecs failed"),
        {| mgr := zeroManager; lib := fresh ["RegisterDefaultCodecs"];
           trace := [EvRegisterDefaultCodecs] |})
  /\ libNewPeerConnection stunConfig (fresh ["NewPeerConnection"])
     = (inl "NewPeerConnection failed", fresh ["NewPeerConnection"])
  /\ newWebRTCManager (Some tt) (initWorld (fresh ["NewPeerConnection"]))
     = (Ok (None, Some "failed to create peer connection: NewPeerConnection failed"),
        {| mgr := zeroManager; lib := fresh ["NewPeerConnection"];
           trace := [EvRegisterDefaultCodecs; EvNewPeerConnection stunConfig] |}).
Proof.
  split; [reflexivity|].
  split; [exact (proj1 (newWebRTCManager_early_failure (C := collab) (Some tt)
                          (initWorld (fresh ["RegisterDefaultCodecs"]))) _ _ eq_refl)|].
  split; [reflexivity|].
  exact (proj2 (newWebRTCManager_early_failure (C := collab) (Some tt)
                  (initWorld (fresh ["NewPeerConnection"]))) _ _ _ eq_refl eq_refl).
Defined.

Lemma newWebRTCManager_success_witness :
  newWebRTCManager (Some tt) (initWorld (fresh []))
  = (Ok (Some ManagerRef, None), session [])
  /\ exists pc,
       mgr (session []) = freshManager pc (Some tt)
       /\ trace (session [])
          = [EvRegisterDefaultCodecs; EvNewPeerConnection stunConfig;
             EvNewTrackLocalStaticSample MimeTypeVP8 "video" "pion";
             EvNewTrackLocalStaticSample MimeTypeOpus "audio" "pion";
             EvAddTrack theVideoTrack; EvAddTrack theAudioTrack;
             EvOnICECandidate; EvOnICEConnectionStateChange].
Proof.
  split; [reflexivity|].
  exact (newWebRTCManager_success (C := collab) (Some tt) (initWorld (fresh [])) (session []) eq_refl).
Defined.

Lemma handleOffer_failed_negotiation_witness :
  peerConnection (mgr (session ["CreateAnswer"])) = Some tt
  /\ libSetRemoteDescription tt "offer-sdp" (lib (session ["CreateAnswer"]))
     = (None, snd (setRemote "offer-sdp" (lib (session ["CreateAnswer"]))))
  /\ libCreateAnswer tt (snd (setRemote "offer-sdp" (lib (session ["CreateAnswer"]))))
     = (inl "CreateAnswer failed",
        snd (setRemote "offer-sdp" (lib (session ["CreateAnswer"]))))
  /\ handleOffer (Some "offer-sdp") (session ["CreateAnswer"])
     = (Ok (Some "failed to create answer: CreateAnswer failed"),
        {| mgr := mgr (session ["CreateAnswer"]);
           lib := snd (setRemote "offer-sdp" (lib (session ["CreateAnswer"])));
           trace := trace (session ["CreateAnswer"])
                    ++ [EvSetRemoteDescription "offer-sdp"; EvCreateAnswer] |}).
Proof.
  split; [reflexivity|]. split; [reflexivity|]. split; [reflexivity|].
  destruct (handleOffer_failed_negotiation (C := collab) (session ["CreateAnswer"]) tt "offer-sdp"
              eq_refl) as (_ & Hanswer & _).
  exact (Hanswer _ _ _ eq_refl eq_refl).
Defined.

Lemma signaling_keeps_mutex_discipline_witness :
  mu (mgr (session [])) = false
  /\ SignalingStep (session []) (snd (readLoop [bogusMsg; offerMsg] "EOF" (session [])))
  /\ SignalingStep (session []) (snd (onICECandidate (Some tt) (Some "candidate") (session []))).
Proof.
  split; [reflexivity|].
  destruct (signaling_keeps_mutex_discipline (C := collab) (Some tt) [bogusMsg; offerMsg] "EOF"
              (Some "candidate") (session []) eq_refl) as (Hloop & Hcb & _).
  split; [exact Hloop | exact Hcb].
Defined.

Lemma onICECandidate_sends_one_ice_message_witness :
  mu (mgr (session [])) = false
  /\ fst (onICECandidate (Some tt) (Some "candidate") (session [])) = Ok tt
  /\ sent (trace (snd (onICECandidate (Some tt) (Some "candidate") (session []))))
     = [{| Type_ := "ice"; SDP := None; ICE := Some "candidate"; Error_ := "" |}].
Proof.
  split; [reflexivity|].
  destruct (onICECandidate_sends_one_ice_message (C := collab) tt "candidate" (session []))
    as (_ & _ & Hfree).
  pose proof (Hfree eq_refl) as Hrun.
  split; [exact (f_equal fst Hrun) | exact (f_equal (fun r => sent (trace (snd r))) Hrun)].
Defined.

Lemma read_loop_ends_only_on_read_error_witness :
  peerConnection (mgr (session [])) = Some tt
  /\ wsConn (mgr (session [])) = Some tt
  /\ mu (mgr (session [])) = false
  /\ Forall (fun msg : Message => Type_ msg = "offer" -> SDP msg <> None)
       [bogusMsg; offerMsg; endOfCandidates]
  /\ forall s, fst (readLoop [bogusMsg; offerMsg; endOfCandidates] "EOF" (session []))
               <> Panic s.
Proof.
  assert (Hall : Forall (fun msg : Message => Type_ msg = "offer" -> SDP msg <> None)
                   [bogusMsg; offerMsg; endOfCandidates])
    by (repeat constructor; cbn; intros; discriminate).
  split; [reflexivity|]. split; [reflexivity|]. split; [reflexivity|].
  split; [exact Hall|].
  exact (proj1 (read_loop_ends_only_on_read_error (C := collab) [bogusMsg; offerMsg; endOfCandidates]
                  "EOF" (session []) tt tt eq_refl eq_refl eq_refl Hall)).
Defined.

Lemma popped_samples_written_once_in_order_witness :
  stopChan (mgr (session ["WriteSample"])) <> Some ChanClosed
  /\ videoTrack (mgr (session ["WriteSample"])) = Some theVideoTrack
  /\ audioTrack (mgr (session ["WriteSample"])) = Some theAudioTrack
  /\ libUnmarshal (firstn 1500 [x60; x01])
     = inr {| PayloadType := 96; SequenceNumber := 1; Timestamp := 0;
              Marker := false; Payload := [] |}
  /\ samplesWritten
       (trace (snd (ingestIteration emptyBuffers (Datagram [x60; x01])
                      (session ["WriteSample"]))))
     = [(theVideoTrack,
         {| PayloadType := 96; SequenceNumber := 1; Timestamp := 0;
            Marker := false; Payload := [] |})].
Proof.
  assert (Hopen : stopChan (mgr (session ["WriteSample"])) <> Some ChanClosed)
    by (cbn; discriminate).
  split; [exact Hopen|]. split; [reflexivity|]. split; [reflexivity|].
  split; [reflexivity|].
  destruct (popped_samples_written_once_in_order (C := collab) emptyBuffers [x60; x01] _
              (session ["WriteSample"]) theVideoTrack theAudioTrack Hopen
              eq_refl eq_refl eq_refl) as (Hvideo & _).
  rewrite (Hvideo eq_refl). reflexivity.
Defined.

Lemma ingest_loop_returns_after_close_witness :
  stopChan (mgr (session [])) = Some ChanOpen
  /\ peerConnection (mgr (session [])) = Some tt
  /\ ingestLoop emptyBuffers [Datagram [x60; x01]; ReadTimeout "i/o timeout"]
       (snd (close (session [])))
     = (Ok Returned, snd (close (session []))).
Proof.
  split; [reflexivity|]. split; [reflexivity|].
  exact (proj2 (proj2 (ingest_loop_returns_after_close (C := collab) (session []) tt emptyBuffers
                         (Datagram [x60; x01]) [ReadTimeout "i/o timeout"]
                         eq_refl eq_refl))).
Defined.

Lemma handleMedia_returns_only_after_close_witness :
  libListenUDP "127.0.0.1" 5004 (lib (session []))
  = (inr tt, snd (listenUDP (lib (session []))))
  /\ stopChan (mgr (session [])) <> Some ChanClosed
  /\ videoTrack (mgr (session [])) = Some theVideoTrack
  /\ audioTrack (mgr (session [])) = Some theAudioTrack
  /\ exists w' delta,
       handleMedia [Datagram [x60; x01]] (session []) = (Blocked, w')
       /\ mgr w' = setUdpListener (Some tt) (mgr (session []))
       /\ trace w' = (trace (session []) ++ delta)%list
       /\ filter isTeardown delta = [].
Proof.
  assert (Hopen : stopChan (mgr (session [])) <> Some ChanClosed) by (cbn; discriminate).
  split; [reflexivity|]. split; [exact Hopen|]. split; [reflexivity|].
  split; [reflexivity|].
  exact (proj2 (handleMedia_returns_only_after_close (C := collab) [Datagram [x60; x01]] (session [])
                  tt _ eq_refl) theVideoTrack theAudioTrack Hopen eq_refl eq_refl).
Defined.

Lemma close_after_media_start_closes_socket_witness :
  libListenUDP "127.0.0.1" 5004 (lib (session []))
  = (inr tt, snd (listenUDP (lib (session []))))
  /\ stopChan (mgr (session [])) = Some ChanOpen
  /\ peerConnection (mgr (session [])) = Some tt
  /\ videoTrack (mgr (session [])) = Some theVideoTrack
  /\ audioTrack (mgr (session [])) = Some theAudioTrack
  /\ exists w2 delta,
       close (snd (handleMedia [Datagram [x60; x01]] (session []))) = (Ok tt, w2)
       /\ trace w2
          = (trace (snd (handleMedia [Datagram [x60; x01]] (session []))) ++ delta)%list
       /\ filter isTeardown delta = [EvCloseChan; EvUDPClose; EvClose]
       /\ recvStopChan w2 = (Ok tt, w2).
Proof.
  split; [reflexivity|]. split; [reflexivity|]. split; [reflexivity|].
  split; [reflexivity|]. split; [reflexivity|].
  exact (close_after_media_start_closes_socket (C := collab) [Datagram [x60; x01]] (session []) tt _
           tt theVideoTrack theAudioTrack eq_refl eq_refl eq_refl eq_refl eq_refl).
Defined.

